(** * Quiz generator front end: a shallow embedding of [frontend/script.js]

    The script keeps one global object [appState] and a handful of DOM
    elements, and reacts to user events (file selection, navigation
    buttons, radio and text inputs) and to the completion of the network
    request issued by [generateQuiz].

    The embedding follows the script function by function.  Every handler
    is a computation in a small state-and-exception monad over a [World]
    that contains [appState], the DOM elements the script reads or writes,
    and the requests that are in flight.  A JavaScript exception keeps the
    mutations made before it was raised, exactly as in the script.

    Conventions of the embedding:
    - JavaScript numbers that are array indices, lengths, sizes and
      millisecond timestamps are integers ([Z]);
    - [null] and [undefined] for [appState.quiz] are the [None] of an
      option: the script only tests them with [!appState.quiz] or
      dereferences them, and both behave alike there;
    - the HTML assigned to [quizContent.innerHTML] is kept in structured
      form (the card header, the radio inputs with their [value] and
      [checked] attributes, the optional text input, the explanation);
      the texts that the script interpolates into the markup (question
      and option texts, explanations) are assumed to be free of markup,
      and what is proved about the saved text of a short answer is
      stated for texts that an attribute value holds verbatim
      ([attribute_safe]);
    - the element with id [shortAnswerInput] is the text input that
      [displayQuestion] renders inside [quizContent], if any;
    - the callbacks given to [setTimeout] by [showError]/[showSuccess] are
      separate events that hide the message;
    - [generateQuiz] is suspended at [await fetch(...)] and resumed when the
      response and its body are available: nothing is assigned between
      its two [await]s, so they are one step of the model;
    - the size text computed by [formatFileSize] uses floating-point
      logarithms and is not part of the model: the rendered file list is
      kept as the list of the files themselves. *)

From stdpp Require Import gmap strings list pretty.
From Stdlib Require Import ZArith Lia Ascii.

Local Open Scope Z_scope.
Local Open Scope string_scope.
Local Open Scope list_scope.

(** ** JavaScript values and helpers *)

(** The values that can be found in [appState.answers] or compared against
    them by [displayQuestion]. *)
Inductive JsVal :=
| JUndefined
| JNum (n : Z)
| JStr (s : string).

#[global] Instance JsVal_eq_dec : EqDecision JsVal.
Proof. solve_decision. Defined.

(** [a === b]: never true across types. *)
Definition strict_eq (a b : JsVal) : bool :=
  match a, b with
  | JUndefined, JUndefined => true
  | JNum n, JNum m => bool_decide (n = m)
  | JStr s, JStr t => bool_decide (s = t)
  | _, _ => false
  end.

(** Conversion of a value to a string inside a template literal. *)
Definition to_js_string (v : JsVal) : string :=
  match v with
  | JUndefined => "undefined"
  | JNum n => pretty n
  | JStr s => s
  end.

(** Truthiness of a value. *)
Definition truthy (v : JsVal) : bool :=
  match v with
  | JUndefined => false
  | JNum n => negb (bool_decide (n = 0))
  | JStr s => negb (bool_decide (s = ""))
  end.

(** [v || ''] *)
Definition or_empty (v : JsVal) : JsVal :=
  if truthy v then v else JStr "".

(** [arr[i]] for a number [i]: [undefined] outside the array. *)
Definition js_index {A} (l : list A) (i : Z) : option A :=
  if bool_decide (0 <= i) then l !! Z.to_nat i else None.

(** [arr.length] *)
Definition js_length {A} (l : list A) : Z := Z.of_nat (length l).

(** [arr.map((x, index) => f x index)] *)
Fixpoint js_mapi_from {A B} (i : Z) (f : A → Z → B) (l : list A) : list B :=
  match l with
  | [] => []
  | x :: l' => f x i :: js_mapi_from (i + 1) f l'
  end.

Definition js_mapi {A B} (f : A → Z → B) (l : list A) : list B :=
  js_mapi_from 0 f l.

(** [arr.splice(index, 1)] as used by [removeFile]: a negative index counts
    from the end, an index past the end removes nothing. *)
Definition splice_start {A} (l : list A) (index : Z) : Z :=
  if bool_decide (index < 0) then Z.max (js_length l + index) 0
  else Z.min index (js_length l).

Definition splice1 {A} (l : list A) (index : Z) : list A :=
  let start := Z.to_nat (splice_start l index) in
  take start l ++ drop (S start) l.

(** *** Strings *)

(** [s.split(sep)] for a one-character separator: always at least one
    piece. *)
Fixpoint split (sep : ascii) (s : string) : list string :=
  match s with
  | EmptyString => [EmptyString]
  | String c s' =>
      if bool_decide (c = sep) then EmptyString :: split sep s'
      else match split sep s' with
           | [] => [String c EmptyString]
           | piece :: rest => String c piece :: rest
           end
  end.

(** [arr.pop()] (the value only). *)
Definition pop {A} (l : list A) : option A := last l.

Definition lower_ascii (c : ascii) : ascii :=
  let n := N_of_ascii c in
  if bool_decide (65 <= n <= 90)%N then ascii_of_N (n + 32) else c.

(** [s.toLowerCase()] on the ASCII range; no character outside it
    lower-cases to a letter of the accepted extensions. *)
Fixpoint toLowerCase (s : string) : string :=
  match s with
  | EmptyString => EmptyString
  | String c s' => String (lower_ascii c) (toLowerCase s')
  end.

(** [arr.includes(x)] on strings. *)
Definition includes (l : list string) (x : string) : bool :=
  bool_decide (x ∈ l).

(** *** Dates *)

(** [s.padStart(width, '0')] *)
Fixpoint pad_go (fuel width : nat) (s : string) : string :=
  match fuel with
  | O => s
  | S fuel' => if bool_decide (String.length s < width)%nat
               then pad_go fuel' width ("0" +:+ s) else s
  end.

Definition pad_left (width : nat) (s : string) : string := pad_go width width s.

Definition digits (width : nat) (n : Z) : string := pad_left width (pretty n).

(** Civil date of a day number counted from 1970-01-01 (proleptic
    Gregorian calendar). *)
Definition civil_from_days (days : Z) : Z * Z * Z :=
  let z := days + 719468 in
  let era := z / 146097 in
  let doe := z - era * 146097 in
  let yoe := (doe - doe / 1460 + doe / 36524 - doe / 146096) / 365 in
  let doy := doe - (365 * yoe + yoe / 4 - yoe / 100) in
  let mp := (5 * doy + 2) / 153 in
  let d := doy - (153 * mp + 2) / 5 + 1 in
  let m := if bool_decide (mp < 10) then mp + 3 else mp - 9 in
  let y := yoe + era * 400 + (if bool_decide (m <= 2) then 1 else 0) in
  (y, m, d).

Definition iso_year (y : Z) : string :=
  if bool_decide (0 <= y <= 9999) then digits 4 y
  else if bool_decide (y < 0) then "-" +:+ digits 6 (- y)
  else "+" +:+ digits 6 y.

(** [new Date(ms).toISOString()] for a time value [ms] in milliseconds
    since the epoch (the clock never yields an invalid date). *)
Definition toISOString (ms : Z) : string :=
  let days := ms / 86400000 in
  let r := ms mod 86400000 in
  let '(y, m, d) := civil_from_days days in
  iso_year y +:+ "-" +:+ digits 2 m +:+ "-" +:+ digits 2 d +:+ "T" +:+
  digits 2 (r / 3600000) +:+ ":" +:+ digits 2 (r / 60000 mod 60) +:+ ":" +:+
  digits 2 (r / 1000 mod 60) +:+ "." +:+ digits 3 (r mod 1000) +:+ "Z".

(** ** Data model *)

(** A [File] of the browser: the script reads [name] and [size] only. *)
Module File.
Record t := mk { name : string; size : Z }.
End File.

(** One element of the array delivered by the service under the key
    [quiz].  [options] and [explanation] may be missing. *)
Module Question.
Record t := mk {
  type : string;
  question : string;
  options : option (list string);
  explanation : option string
}.
End Question.

(** [appState] *)
Record AppState := mkAppState {
  files : list File.t;
  quiz : option (list Question.t);
  currentQuestionIndex : Z;
  answers : gmap Z JsVal;
  isGenerating : bool
}.

(** The literal the script starts from. *)
Definition appState0 : AppState :=
  {| files := []; quiz := None; currentQuestionIndex := 0;
     answers := ∅; isGenerating := false |}.

(** *** The DOM elements the script touches *)

(** [errorMessage] and [successMessage]. *)
Record Message := mkMessage { textContent : string; display : string }.

(** An [<input type="radio" name="answer">] with its label text. *)
Record Radio := mkRadio { value : string; checked : bool; label : string }.

(** The children of [quizContent]: the question card.  [listening] tells
    whether [saveAnswer] has been registered on the inputs, which
    [displayQuestion] does after each rendering. *)
Record QuizContent := mkQuizContent {
  questionNumber : string;
  questionType : string;
  questionText : string;
  radios : list Radio;
  shortAnswerInput : option string;
  explanationText : option string;
  listening : bool
}.

(** The settings form read by [generateQuiz]. *)
Record Settings := mkSettings {
  questionCount : string;
  difficulty : string;
  questionTypes : list string;
  includeExplanations : bool
}.

Record Dom := mkDom {
  uploadArea_display : string;
  fileList_display : string;
  filesContainer : list File.t;
  fileInput_value : string;
  settingsSection_display : string;
  quizSection_display : string;
  loadingOverlay_display : string;
  errorMessage : Message;
  successMessage : Message;
  currentQuestion : string;
  totalQuestions : string;
  quizContent : QuizContent;
  prevBtn_disabled : bool;
  nextBtn_disabled : bool;
  settings : Settings
}.

(** The body of the POST request built by [generateQuiz]. *)
Record FormData := mkFormData {
  fd_files : list File.t;
  fd_question_count : string;
  fd_difficulty : string;
  fd_question_types : list string;
  fd_include_explanations : bool
}.

(** A callback registered with [setTimeout]. *)
Inductive Timer := HideError | HideSuccess.

(** Everything a handler can read or change: [appState], the document,
    the requests sent by [fetch] that have not completed yet, the timers
    that have not fired yet, and the clock (milliseconds since the epoch)
    read by [new Date()] and [Date.now()]. *)
Record World := mkWorld {
  appState : AppState;
  document : Dom;
  inflight : list FormData;
  timers : list Timer;
  clock : Z
}.

(** The world when the script has just been loaded into a document [d] at
    time [t]. *)
Definition world0 (d : Dom) (t : Z) : World :=
  {| appState := appState0; document := d; inflight := []; timers := [];
     clock := t |}.

(** *** Field updates *)

Definition set_files (v : list File.t) (a : AppState) : AppState :=
  {| files := v; quiz := quiz a; currentQuestionIndex := currentQuestionIndex a;
     answers := answers a; isGenerating := isGenerating a |}.
Definition set_quiz (v : option (list Question.t)) (a : AppState) : AppState :=
  {| files := files a; quiz := v; currentQuestionIndex := currentQuestionIndex a;
     answers := answers a; isGenerating := isGenerating a |}.
Definition set_currentQuestionIndex (v : Z) (a : AppState) : AppState :=
  {| files := files a; quiz := quiz a; currentQuestionIndex := v;
     answers := answers a; isGenerating := isGenerating a |}.
Definition set_answers (v : gmap Z JsVal) (a : AppState) : AppState :=
  {| files := files a; quiz := quiz a; currentQuestionIndex := currentQuestionIndex a;
     answers := v; isGenerating := isGenerating a |}.

Definition set_files_view (ua fl : string) (d : Dom) : Dom :=
  {| uploadArea_display := ua; fileList_display := fl;
     filesContainer := filesContainer d; fileInput_value := fileInput_value d;
     settingsSection_display := settingsSection_display d;
     quizSection_display := quizSection_display d;
     loadingOverlay_display := loadingOverlay_display d;
     errorMessage := errorMessage d; successMessage := successMessage d;
     currentQuestion := currentQuestion d; totalQuestions := totalQuestions d;
     quizContent := quizContent d; prevBtn_disabled := prevBtn_disabled d;
     nextBtn_disabled := nextBtn_disabled d; settings := settings d |}.
Definition set_filesContainer (v : list File.t) (d : Dom) : Dom :=
  {| uploadArea_display := uploadArea_display d;
     fileList_display := fileList_display d;
     filesContainer := v; fileInput_value := fileInput_value d;
     settingsSection_display := settingsSection_display d;
     quizSection_display := quizSection_display d;
     loadingOverlay_display := loadingOverlay_display d;
     errorMessage := errorMessage d; successMessage := successMessage d;
     currentQuestion := currentQuestion d; totalQuestions := totalQuestions d;
     quizContent := quizContent d; prevBtn_disabled := prevBtn_disabled d;
     nextBtn_disabled := nextBtn_disabled d; settings := settings d |}.
Definition set_fileInput_value (v : string) (d : Dom) : Dom :=
  {| uploadArea_display := uploadArea_display d;
     fileList_display := fileList_display d;
     filesContainer := filesContainer d; fileInput_value := v;
     settingsSection_display := settingsSection_display d;
     quizSection_display := quizSection_display d;
     loadingOverlay_display := loadingOverlay_display d;
     errorMessage := errorMessage d; successMessage := successMessage d;
     currentQuestion := currentQuestion d; totalQuestions := totalQuestions d;
     quizContent := quizContent d; prevBtn_disabled := prevBtn_disabled d;
     nextBtn_disabled := nextBtn_disabled d; settings := settings d |}.
Definition set_settingsSection_display (v : string) (d : Dom) : Dom :=
  {| uploadArea_display := uploadArea_display d;
     fileList_display := fileList_display d;
     filesContainer := filesContainer d; fileInput_value := fileInput_value d;
     settingsSection_display := v;
     quizSection_display := quizSection_display d;
     loadingOverlay_display := loadingOverlay_display d;
     errorMessage := errorMessage d; successMessage := successMessage d;
     currentQuestion := currentQuestion d; totalQuestions := totalQuestions d;
     quizContent := quizContent d; prevBtn_disabled := prevBtn_disabled d;
     nextBtn_disabled := nextBtn_disabled d; settings := settings d |}.
Definition set_quizSection_display (v : string) (d : Dom) : Dom :=
  {| uploadArea_display := uploadArea_display d;
     fileList_display := fileList_display d;
     filesContainer := filesContainer d; fileInput_value := fileInput_value d;
     settingsSection_display := settingsSection_display d;
     quizSection_display := v;
     loadingOverlay_display := loadingOverlay_display d;
     errorMessage := errorMessage d; successMessage := successMessage d;
     currentQuestion := currentQuestion d; totalQuestions := totalQuestions d;
     quizContent := quizContent d; prevBtn_disabled := prevBtn_disabled d;
     nextBtn_disabled := nextBtn_disabled d; settings := settings d |}.
Definition set_loadingOverlay_display (v : string) (d : Dom) : Dom :=
  {| uploadArea_display := uploadArea_display d;
     fileList_display := fileList_display d;
     filesContainer := filesContainer d; fileInput_value := fileInput_value d;
     settingsSection_display := settingsSection_display d;
     quizSection_display := quizSection_display d;
     loadingOverlay_display := v;
     errorMessage := errorMessage d; successMessage := successMessage d;
     currentQuestion := currentQuestion d; totalQuestions := totalQuestions d;
     quizContent := quizContent d; prevBtn_disabled := prevBtn_disabled d;
     nextBtn_disabled := nextBtn_disabled d; settings := settings d |}.
Definition set_errorMessage (v : Message) (d : Dom) : Dom :=
  {| uploadArea_display := uploadArea_display d;
     fileList_display := fileList_display d;
     filesContainer := filesContainer d; fileInput_value := fileInput_value d;
     settingsSection_display := settingsSection_display d;
     quizSection_display := quizSection_display d;
     loadingOverlay_display := loadingOverlay_display d;
     errorMessage := v; successMessage := successMessage d;
     currentQuestion := currentQuestion d; totalQuestions := totalQuestions d;
     quizContent := quizContent d; prevBtn_disabled := prevBtn_disabled d;
     nextBtn_disabled := nextBtn_disabled d; settings := settings d |}.
Definition set_successMessage (v : Message) (d : Dom) : Dom :=
  {| uploadArea_display := uploadArea_display d;
     fileList_display := fileList_display d;
     filesContainer := filesContainer d; fileInput_value := fileInput_value d;
     settingsSection_display := settingsSection_display d;
     quizSection_display := quizSection_display d;
     loadingOverlay_display := loadingOverlay_display d;
     errorMessage := errorMessage d; successMessage := v;
     currentQuestion := currentQuestion d; totalQuestions := totalQuestions d;
     quizContent := quizContent d; prevBtn_disabled := prevBtn_disabled d;
     nextBtn_disabled := nextBtn_disabled d; settings := settings d |}.
Definition set_counters (cur tot : string) (d : Dom) : Dom :=
  {| uploadArea_display := uploadArea_display d;
     fileList_display := fileList_display d;
     filesContainer := filesContainer d; fileInput_value := fileInput_value d;
     settingsSection_display := settingsSection_display d;
     quizSection_display := quizSection_display d;
     loadingOverlay_display := loadingOverlay_display d;
     errorMessage := errorMessage d; successMessage := successMessage d;
     currentQuestion := cur; totalQuestions := tot;
     quizContent := quizContent d; prevBtn_disabled := prevBtn_disabled d;
     nextBtn_disabled := nextBtn_disabled d; settings := settings d |}.
Definition set_quizContent (v : QuizContent) (d : Dom) : Dom :=
  {| uploadArea_display := uploadArea_display d;
     fileList_display := fileList_display d;
     filesContainer := filesContainer d; fileInput_value := fileInput_value d;
     settingsSection_display := settingsSection_display d;
     quizSection_display := quizSection_display d;
     loadingOverlay_display := loadingOverlay_display d;
     errorMessage := errorMessage d; successMessage := successMessage d;
     currentQuestion := currentQuestion d; totalQuestions := totalQuestions d;
     quizContent := v; prevBtn_disabled := prevBtn_disabled d;
     nextBtn_disabled := nextBtn_disabled d; settings := settings d |}.
Definition set_prevBtn_disabled (p : bool) (d : Dom) : Dom :=
  {| uploadArea_display := uploadArea_display d;
     fileList_display := fileList_display d;
     filesContainer := filesContainer d; fileInput_value := fileInput_value d;
     settingsSection_display := settingsSection_display d;
     quizSection_display := quizSection_display d;
     loadingOverlay_display := loadingOverlay_display d;
     errorMessage := errorMessage d; successMessage := successMessage d;
     currentQuestion := currentQuestion d; totalQuestions := totalQuestions d;
     quizContent := quizContent d; prevBtn_disabled := p;
     nextBtn_disabled := nextBtn_disabled d; settings := settings d |}.
Definition set_nextBtn_disabled (n : bool) (d : Dom) : Dom :=
  {| uploadArea_display := uploadArea_display d;
     fileList_display := fileList_display d;
     filesContainer := filesContainer d; fileInput_value := fileInput_value d;
     settingsSection_display := settingsSection_display d;
     quizSection_display := quizSection_display d;
     loadingOverlay_display := loadingOverlay_display d;
     errorMessage := errorMessage d; successMessage := successMessage d;
     currentQuestion := currentQuestion d; totalQuestions := totalQuestions d;
     quizContent := quizContent d; prevBtn_disabled := prevBtn_disabled d;
     nextBtn_disabled := n; settings := settings d |}.
Definition set_settings (v : Settings) (d : Dom) : Dom :=
  {| uploadArea_display := uploadArea_display d;
     fileList_display := fileList_display d;
     filesContainer := filesContainer d; fileInput_value := fileInput_value d;
     settingsSection_display := settingsSection_display d;
     quizSection_display := quizSection_display d;
     loadingOverlay_display := loadingOverlay_display d;
     errorMessage := errorMessage d; successMessage := successMessage d;
     currentQuestion := currentQuestion d; totalQuestions := totalQuestions d;
     quizContent := quizContent d; prevBtn_disabled := prevBtn_disabled d;
     nextBtn_disabled := nextBtn_disabled d; settings := v |}.

(** ** The monad of handlers *)

(** A thrown [Error] object: its [name] and [message]. *)
Record Exn := mkExn { exn_name : string; message : string }.

Inductive Completion (A : Type) :=
| Normal (a : A)
| Throw (e : Exn).
Arguments Normal {A} a.
Arguments Throw {A} e.

Definition M (A : Type) : Type := World → Completion A * World.

Definition ret {A} (a : A) : M A := fun w => (Normal a, w).

Definition bind {A B} (m : M A) (k : A → M B) : M B := fun w =>
  match m w with
  | (Normal a, w') => k a w'
  | (Throw e, w') => (Throw e, w')
  end.

Definition throw {A} (e : Exn) : M A := fun w => (Throw e, w).

Definition get : M World := fun w => (Normal w, w).

Definition modify_app (f : AppState → AppState) : M unit := fun w =>
  (Normal tt, {| appState := f (appState w); document := document w;
                 inflight := inflight w; timers := timers w; clock := clock w |}).

Definition modify_dom (f : Dom → Dom) : M unit := fun w =>
  (Normal tt, {| appState := appState w; document := f (document w);
                 inflight := inflight w; timers := timers w; clock := clock w |}).

Definition modify_inflight (f : list FormData → list FormData) : M unit := fun w =>
  (Normal tt, {| appState := appState w; document := document w;
                 inflight := f (inflight w); timers := timers w; clock := clock w |}).

Definition modify_timers (f : list Timer → list Timer) : M unit := fun w =>
  (Normal tt, {| appState := appState w; document := document w;
                 inflight := inflight w; timers := f (timers w);
                 clock := clock w |}).

(** Time passes: the clock advances by [dt] milliseconds. *)
Definition elapse (dt : Z) : M unit := fun w =>
  (Normal tt, {| appState := appState w; document := document w;
                 inflight := inflight w; timers := timers w;
                 clock := clock w + Z.max dt 0 |}).

(** [Date.now()], and the time value of [new Date()]. *)
Definition Date_now : M Z := fun w => (Normal (clock w), w).

(** [try { body } catch (error) { handler error }] *)
Definition try_catch {A} (body : M A) (handler : Exn → M A) : M A := fun w =>
  match body w with
  | (Normal a, w') => (Normal a, w')
  | (Throw e, w') => handler e w'
  end.

(** [try { body } finally { cleanup }] *)
Definition try_finally {A} (body : M A) (cleanup : M unit) : M A := fun w =>
  match body w with
  | (c, w') =>
      match cleanup w' with
      | (Normal _, w'') => (c, w'')
      | (Throw e, w'') => (Throw e, w'')
      end
  end.

Declare Scope js_scope.
Delimit Scope js_scope with js.
Notation "x <- m ;; k" := (bind m (fun x => k))
  (at level 100, m at next level, right associativity) : js_scope.
Notation "m ;; k" := (bind m (fun _ => k))
  (at level 100, right associativity) : js_scope.
Local Open Scope js_scope.

(** The final world and the completion of running a handler. *)
Definition exec {A} (m : M A) (w : World) : World := snd (m w).
Definition completion {A} (m : M A) (w : World) : Completion A := fst (m w).

Definition TypeError (msg : string) : Exn := {| exn_name := "TypeError"; message := msg |}.
Definition Error (msg : string) : Exn := {| exn_name := "Error"; message := msg |}.
Definition SyntaxError (msg : string) : Exn := {| exn_name := "SyntaxError"; message := msg |}.

(** The [TypeError] of reading the property [prop] of [null] or
    [undefined]; [what] is the name of the value in the engine's message. *)
Definition cannot_read_of (what prop : string) : Exn :=
  TypeError ("Cannot read properties of " +:+ what +:+ " (reading '" +:+ prop +:+ "')").

(** The case of [undefined].  It also stands for the reads of
    [appState.quiz], whose [None] does not tell [null] from [undefined]:
    for [null] the engine's message names [null] instead. *)
Definition cannot_read (prop : string) : Exn := cannot_read_of "undefined" prop.

(** ** The script, function by function *)

(** *** UI helper functions *)

(** [showLoading(show)] *)
Definition showLoading (show : bool) : M unit :=
  modify_dom (set_loadingOverlay_display (if show then "flex" else "none")).

(** [showError(message)]: the hiding of the message is left to a timer. *)
Definition showError (msg : string) : M unit :=
  modify_dom (set_errorMessage {| textContent := msg; display := "block" |}) ;;
  modify_timers (fun ts => ts ++ [HideError]).

(** [showSuccess(message)] *)
Definition showSuccess (msg : string) : M unit :=
  modify_dom (set_successMessage {| textContent := msg; display := "block" |}) ;;
  modify_timers (fun ts => ts ++ [HideSuccess]).

(** The callback of a timer. *)
Definition fire (t : Timer) : M unit :=
  match t with
  | HideError => modify_dom (fun d =>
      set_errorMessage {| textContent := textContent (errorMessage d);
                          display := "none" |} d)
  | HideSuccess => modify_dom (fun d =>
      set_successMessage {| textContent := textContent (successMessage d);
                            display := "none" |} d)
  end.

(** *** File upload handlers *)

Definition validExtensions : list string := ["pdf"; "docx"; "txt"; "doc"].

(** [file.name.split('.').pop().toLowerCase()]; [split] never yields an
    empty array, so [pop] always finds a piece. *)
Definition fileExtension (file : File.t) : string :=
  match pop (split "." (File.name file)) with
  | Some piece => toLowerCase piece
  | None => ""
  end.

(** The predicate given to [files.filter] in [addFiles]. *)
Definition isValidFile (file : File.t) : bool :=
  includes validExtensions (fileExtension file)
  && bool_decide (File.size file <= 10 * 1024 * 1024).

(** [displayFiles()] *)
Definition displayFiles : M unit :=
  w <- get ;;
  if bool_decide (js_length (files (appState w)) = 0) then
    modify_dom (set_files_view "block" "none")
  else
    modify_dom (set_files_view "none" "block") ;;
    modify_dom (set_filesContainer (files (appState w))).

(** [addFiles(files)] *)
Definition addFiles (fs : list File.t) : M unit :=
  let validFiles := List.filter isValidFile fs in
  if bool_decide (js_length validFiles = 0) then
    showError "Please select valid files (PDF, DOCX, TXT, DOC) under 10MB"
  else
    modify_app (fun a => set_files (files a ++ validFiles) a) ;;
    displayFiles.

(** [handleFileSelect(e)] and [handleDrop(e)] both hand the files of the
    event to [addFiles]. *)
Definition handleFileSelect (fs : list File.t) : M unit := addFiles fs.
Definition handleDrop (fs : list File.t) : M unit := addFiles fs.

(** [removeFile(index)] *)
Definition removeFile (index : Z) : M unit :=
  modify_app (fun a => set_files (splice1 (files a) index) a) ;;
  displayFiles.

(** [clearFiles()] *)
Definition clearFiles : M unit :=
  modify_app (set_files []) ;;
  modify_dom (set_fileInput_value "") ;;
  displayFiles ;;
  modify_dom (set_settingsSection_display "none").

(** *** Quiz generation *)

(** [handleGenerateQuiz()] *)
Definition handleGenerateQuiz : M unit :=
  w <- get ;;
  if bool_decide (js_length (files (appState w)) = 0) then
    showError "Please select at least one file"
  else
    modify_dom (set_settingsSection_display "block").

(** What [await fetch(...)] and [await response.json()] can deliver. *)
Inductive Body :=
| BodyInvalid (msg : string)                  (* [json()] rejects *)
| BodyNull                                    (* the JSON value [null] *)
| BodyData (quiz : option (list Question.t)). (* any other JSON value, with
                                                 its [quiz] member if any *)

Inductive FetchResult :=
| Rejected (msg : string)                     (* the request failed *)
| Response (ok : bool) (body : Body).

(** [updateNavigation()] *)
Definition updateNavigation : M unit :=
  w <- get ;;
  modify_dom (set_prevBtn_disabled
                (bool_decide (currentQuestionIndex (appState w) = 0))) ;;
  match quiz (appState w) with
  | None => throw (cannot_read "length")
  | Some qs =>
      modify_dom (set_nextBtn_disabled
        (bool_decide (currentQuestionIndex (appState w) = js_length qs - 1)))
  end.

(** The radio inputs of a [multiple_choice] or [fill_in_the_blank]
    question: one per option, with the option's position as value. *)
Definition option_radios (savedAnswer : JsVal) (opts : list string) : list Radio :=
  js_mapi (fun option index =>
             {| value := to_js_string (JNum index);
                checked := strict_eq savedAnswer (JNum index);
                label := option |}) opts.

(** The two radio inputs of a [true_false] question. *)
Definition true_false_radios (savedAnswer : JsVal) : list Radio :=
  [ {| value := "true"; checked := strict_eq savedAnswer (JStr "true");
       label := "True" |};
    {| value := "false"; checked := strict_eq savedAnswer (JStr "false");
       label := "False" |} ].

(** The inputs produced by the [switch (question.type)] of
    [displayQuestion]: the radios and the text input, or the [TypeError]
    of [question.options.map] when [options] is missing.  The text input
    is given the saved text as its value; the page reads that text back
    from the attribute [value="..."], which holds it verbatim when it is
    [attribute_safe]. *)
Definition question_inputs (q : Question.t) (savedAnswer : JsVal)
  : Completion (list Radio * option string) :=
  if bool_decide (Question.type q = "multiple_choice") then
    match Question.options q with
    | Some opts => Normal (option_radios savedAnswer opts, None)
    | None => Throw (cannot_read "map")
    end
  else if bool_decide (Question.type q = "true_false") then
    Normal (true_false_radios savedAnswer, None)
  else if bool_decide (Question.type q = "short_answer") then
    Normal ([], Some (to_js_string (or_empty savedAnswer)))
  else if bool_decide (Question.type q = "fill_in_the_blank") then
    match Question.options q with
    | Some opts => Normal (option_radios savedAnswer opts, None)
    | None => Throw (cannot_read "map")
    end
  else Normal ([], None).

(** [if (question.explanation)]: present and not the empty string. *)
Definition shown_explanation (q : Question.t) : option string :=
  match Question.explanation q with
  | Some e => if bool_decide (e = "") then None else Some e
  | None => None
  end.

(** [appState.answers[appState.currentQuestionIndex]] *)
Definition savedAnswer_of (a : AppState) : JsVal :=
  default JUndefined (answers a !! currentQuestionIndex a).

(** [displayQuestion()] *)
Definition displayQuestion : M unit :=
  w <- get ;;
  let a := appState w in
  match quiz a with
  | None => showError "No questions generated"
  | Some qs =>
      if bool_decide (js_length qs = 0) then showError "No questions generated"
      else
        let questionNumber := currentQuestionIndex a + 1 in
        let totalQuestions := js_length qs in
        modify_dom (set_counters (to_js_string (JNum questionNumber))
                                 (to_js_string (JNum totalQuestions))) ;;
        match js_index qs (currentQuestionIndex a) with
        | None => throw (cannot_read "type")
        | Some question =>
            match question_inputs question (savedAnswer_of a) with
            | Throw e => throw e
            | Normal (rs, input) =>
                modify_dom (set_quizContent
                  {| questionNumber := to_js_string (JNum questionNumber);
                     questionType := Question.type question;
                     questionText := Question.question question;
                     radios := rs;
                     shortAnswerInput := input;
                     explanationText := shown_explanation question;
                     listening := true |})
            end
        end
  end.

(** [displayQuiz()] *)
Definition displayQuiz : M unit :=
  modify_dom (set_quizSection_display "block") ;;
  displayQuestion ;;
  updateNavigation.

(** The request body assembled by [generateQuiz]. *)
Definition formData_of (w : World) : FormData :=
  let s := settings (document w) in
  {| fd_files := files (appState w);
     fd_question_count := questionCount s;
     fd_difficulty := difficulty s;
     fd_question_types := questionTypes s;
     fd_include_explanations := includeExplanations s |}.

(** [generateQuiz()] up to [await fetch(...)]: the request is sent and the
    function is suspended. *)
Definition generateQuiz_start : M unit :=
  showLoading true ;;
  modify_dom (set_quizSection_display "none") ;;
  w <- get ;;
  modify_inflight (fun rs => rs ++ [formData_of w]).

(** The rest of the [try] block of [generateQuiz], from the completion of
    [fetch] on. *)
Definition generateQuiz_body (r : FetchResult) : M unit :=
  match r with
  | Rejected msg => throw (TypeError msg)
  | Response ok body =>
      if negb ok then throw (Error "Failed to generate quiz")
      else
        match body with
        | BodyInvalid msg => throw (SyntaxError msg)
        | BodyNull => throw (cannot_read_of "null" "quiz")
        | BodyData q =>
            modify_app (set_quiz q) ;;
            modify_app (set_currentQuestionIndex 0) ;;
            modify_app (set_answers ∅) ;;
            displayQuiz ;;
            showSuccess "Quiz generated successfully!"
        end
  end.

(** [generateQuiz()] from the completion of [fetch] on, with its [catch]
    and [finally] clauses. *)
Definition generateQuiz_resume (r : FetchResult) : M unit :=
  try_finally
    (try_catch (generateQuiz_body r) (fun error => showError (message error)))
    (showLoading false).

(** The completion of the [k]-th request in flight. *)
Definition deliver (k : nat) (r : FetchResult) : M unit :=
  w <- get ;;
  match inflight w !! k with
  | None => ret tt
  | Some _ => modify_inflight (delete k) ;; generateQuiz_resume r
  end.

(** *** Answers and navigation *)

(** [saveAnswer()] *)
Definition saveAnswer : M unit :=
  w <- get ;;
  let content := quizContent (document w) in
  let index := currentQuestionIndex (appState w) in
  match List.filter checked (radios content) with
  | radio :: _ =>
      modify_app (fun a => set_answers (<[index := JStr (value radio)]> (answers a)) a)
  | [] =>
      match shortAnswerInput content with
      | Some text =>
          modify_app (fun a => set_answers (<[index := JStr text]> (answers a)) a)
      | None => ret tt
      end
  end.

(** [previousQuestion()] *)
Definition previousQuestion : M unit :=
  w <- get ;;
  if bool_decide (0 < currentQuestionIndex (appState w)) then
    saveAnswer ;;
    modify_app (fun a => set_currentQuestionIndex (currentQuestionIndex a - 1) a) ;;
    displayQuestion ;;
    updateNavigation
  else ret tt.

(** [nextQuestion()] *)
Definition nextQuestion : M unit :=
  w <- get ;;
  match quiz (appState w) with
  | None => throw (cannot_read "length")
  | Some qs =>
      if bool_decide (currentQuestionIndex (appState w) < js_length qs - 1) then
        saveAnswer ;;
        modify_app (fun a => set_currentQuestionIndex (currentQuestionIndex a + 1) a) ;;
        displayQuestion ;;
        updateNavigation
      else ret tt
  end.

(** The object serialised by [downloadQuiz] and the name of the file. *)
Record QuizData := mkQuizData {
  qd_questions : option (list Question.t);
  qd_answers : gmap Z JsVal;
  qd_timestamp : string
}.

Record Download := mkDownload { download : string; content : QuizData }.

(** [downloadQuiz()]; [dt] is the time that the serialisation takes,
    between [new Date()] and [Date.now()]. *)
Definition downloadQuiz (dt : Z) : M Download :=
  w <- get ;;
  now <- Date_now ;;
  let quizData :=
    {| qd_questions := quiz (appState w);
       qd_answers := answers (appState w);
       qd_timestamp := toISOString now |} in
  elapse dt ;;
  now' <- Date_now ;;
  showSuccess "Quiz downloaded successfully!" ;;
  ret {| download := "quiz-" +:+ to_js_string (JNum now') +:+ ".json";
         content := quizData |}.

(** [retakeQuiz()] *)
Definition retakeQuiz : M unit :=
  modify_app (set_currentQuestionIndex 0) ;;
  modify_app (set_answers ∅) ;;
  displayQuestion ;;
  updateNavigation.

(** ** Events *)

(** The user clicks the [k]-th radio of the card.  If it is not checked
    yet, the browser checks it (and unchecks the others, which share the
    name [answer]), then runs the [change] listener if one is
    registered. *)
Definition check_radio (k : nat) (rs : list Radio) : list Radio :=
  imap (fun i r => {| value := value r; checked := bool_decide (i = k);
                      label := label r |}) rs.

Definition with_radios (rs : list Radio) (c : QuizContent) : QuizContent :=
  {| questionNumber := questionNumber c; questionType := questionType c;
     questionText := questionText c; radios := rs;
     shortAnswerInput := shortAnswerInput c;
     explanationText := explanationText c; listening := listening c |}.

Definition with_shortAnswerInput (v : option string) (c : QuizContent) : QuizContent :=
  {| questionNumber := questionNumber c; questionType := questionType c;
     questionText := questionText c; radios := radios c;
     shortAnswerInput := v;
     explanationText := explanationText c; listening := listening c |}.

Definition selectRadio (k : nat) : M unit :=
  w <- get ;;
  let c := quizContent (document w) in
  match radios c !! k with
  | None => ret tt
  | Some radio =>
      if checked radio then ret tt
      else
        modify_dom (set_quizContent (with_radios (check_radio k (radios c)) c)) ;;
        if listening c then saveAnswer else ret tt
  end.

(** The user edits the text input of the card, then the [input] listener
    runs if one is registered. *)
Definition typeText (text : string) : M unit :=
  w <- get ;;
  let c := quizContent (document w) in
  match shortAnswerInput c with
  | None => ret tt
  | Some _ =>
      modify_dom (set_quizContent (with_shortAnswerInput (Some text) c)) ;;
      if listening c then saveAnswer else ret tt
  end.

(** The [k]-th pending timer fires. *)
Definition timeout (k : nat) : M unit :=
  w <- get ;;
  match timers w !! k with
  | None => ret tt
  | Some t => modify_timers (delete k) ;; fire t
  end.

(** What can happen to the page.  The drag-over and drag-leave handlers
    only toggle a style class and are left out. *)
Inductive Event :=
| EvAddFiles (fs : list File.t)
| EvRemoveFile (index : Z)
| EvClearFiles
| EvHandleGenerateQuiz
| EvGenerateQuiz
| EvDeliver (k : nat) (r : FetchResult)
| EvPrevious
| EvNext
| EvDownload (dt : Z)
| EvRetake
| EvSelectRadio (k : nat)
| EvTypeText (text : string)
| EvChangeSettings (s : Settings)
| EvTimeout (k : nat)
| EvElapse (dt : Z).

Definition handler (e : Event) : M unit :=
  match e with
  | EvAddFiles fs => addFiles fs
  | EvRemoveFile index => removeFile index
  | EvClearFiles => clearFiles
  | EvHandleGenerateQuiz => handleGenerateQuiz
  | EvGenerateQuiz => generateQuiz_start
  | EvDeliver k r => deliver k r
  | EvPrevious => previousQuestion
  | EvNext => nextQuestion
  | EvDownload dt => _ <- downloadQuiz dt ;; ret tt
  | EvRetake => retakeQuiz
  | EvSelectRadio k => selectRadio k
  | EvTypeText text => typeText text
  | EvChangeSettings s => modify_dom (set_settings s)
  | EvTimeout k => timeout k
  | EvElapse dt => elapse dt
  end.

(** An exception that leaves a handler is reported on the console; the
    page goes on with the world as the handler left it. *)
Definition run (evs : list Event) (w : World) : World :=
  fold_left (fun w e => exec (handler e) w) evs w.

(** The worlds the page can be in. *)
Definition reachable (w : World) : Prop :=
  ∃ d t evs, w = run evs (world0 d t).

(** Navigation with the two buttons. *)
Inductive Direction := Back | Forward.

Definition navigate (dir : Direction) : M unit :=
  match dir with
  | Back => previousQuestion
  | Forward => nextQuestion
  end.

(** The worlds after each call of a sequence of navigation calls, and the
    completions of the calls. *)
Fixpoint navigate_trace (dirs : list Direction) (w : World) : list (Completion unit * World) :=
  match dirs with
  | [] => []
  | dir :: dirs' =>
      let r := navigate dir w in
      r :: navigate_trace dirs' (snd r)
  end.

Definition navigate_all (dirs : list Direction) (w : World) : World :=
  fold_left (fun w dir => exec (navigate dir) w) dirs w.

(** The value that [saveAnswer] reads from the card: the [value] of the
    first checked radio, else the contents of the text input. *)
Definition pending_answer (c : QuizContent) : option string :=
  match List.filter checked (radios c) with
  | radio :: _ => Some (value radio)
  | [] => shortAnswerInput c
  end.

(** A question that [displayQuestion] can render: the two kinds that are
    shown as option lists carry their options. *)
Definition renderable (q : Question.t) : Prop :=
  (Question.type q = "multiple_choice" ∨ Question.type q = "fill_in_the_blank")
  → is_Some (Question.options q).

(** Every recorded answer is a string. *)
Definition answers_are_strings (a : AppState) : Prop :=
  ∀ k v, answers a !! k = Some v → ∃ s, v = JStr s.

(** Whenever a non-empty quiz is loaded, [currentQuestionIndex] is one of
    its positions. *)
Definition index_in_range (a : AppState) : Prop :=
  ∀ qs, quiz a = Some qs → qs ≠ [] →
        0 <= currentQuestionIndex a < js_length qs.

(** Every uploaded file passed the filter of [addFiles]. *)
Definition files_are_valid (a : AppState) : Prop :=
  Forall (fun f => isValidFile f = true) (files a).

(** A handler that leaves [appState] alone. *)
Definition app_stable {A} (m : M A) : Prop :=
  ∀ w, appState (snd (m w)) = appState w.

(** A handler that keeps the property [I] of [appState], whether it
    returns or throws. *)
Definition inv_stable (I : AppState → Prop) {A} (m : M A) : Prop :=
  ∀ w, I (appState w) → I (appState (snd (m w))).

(** The card holds nothing that [saveAnswer] has not recorded yet. *)
Definition saved (w : World) : Prop :=
  appState (exec saveAnswer w) = appState w.

(** The ways in which a generation request fails: the request is rejected,
    the response is not OK, its body is not valid JSON, or its body is the
    JSON value [null].  [Some msg] is the reason that the [catch] clause
    of [generateQuiz] displays.  Every other body is taken as it is: its
    [quiz] member, present or not, replaces the session. *)
Definition failure_reason (r : FetchResult) : option string :=
  match r with
  | Rejected msg => Some msg
  | Response false _ => Some "Failed to generate quiz"
  | Response true (BodyInvalid msg) => Some msg
  | Response true BodyNull => Some (message (cannot_read_of "null" "quiz"))
  | Response true (BodyData _) => None
  end.

(** The timestamp of an export, if the export completes. *)
Definition exported_timestamp (dt : Z) (w : World) : option string :=
  match fst (downloadQuiz dt w) with
  | Normal d => Some (qd_timestamp (content d))
  | Throw _ => None
  end.

(** *** Notions used by the further properties *)

(** A handler that leaves the part [π] of the world alone, whether it
    returns or throws. *)
Definition keeps {X} (π : World → X) {A} (m : M A) : Prop :=
  ∀ w, π (snd (m w)) = π w.

(** The file list and the three elements that show it. *)
Definition files_view (w : World) : list File.t * string * string * list File.t :=
  (files (appState w), uploadArea_display (document w),
   fileList_display (document w), filesContainer (document w)).

(** The page shows the upload area exactly when no file is selected, and
    otherwise the list of the selected files. *)
Definition files_view_consistent (w : World) : Prop :=
  match files (appState w) with
  | [] => uploadArea_display (document w) = "block"
          ∧ fileList_display (document w) = "none"
  | fs => uploadArea_display (document w) = "none"
          ∧ fileList_display (document w) = "block"
          ∧ filesContainer (document w) = fs
  end.

(** Every file of every request in flight passed the filter. *)
Definition uploads_are_valid (w : World) : Prop :=
  Forall (fun fd => Forall (fun f => isValidFile f = true) (fd_files fd))
         (inflight w).

(** The two navigation buttons are disabled exactly at the two ends of the
    quiz [qs]. *)
Definition buttons_reflect_position (qs : list Question.t) (w : World) : Prop :=
  prevBtn_disabled (document w)
  = bool_decide (currentQuestionIndex (appState w) = 0)
  ∧ nextBtn_disabled (document w)
    = bool_decide (currentQuestionIndex (appState w) = js_length qs - 1).

(** The index and the keys of the answers are positions of the loaded
    quiz; with no quiz, or an empty one, they can only be 0. *)
Definition position_ok (a : AppState) (k : Z) : Prop :=
  k = 0 ∨ ∃ qs, quiz a = Some qs ∧ 0 <= k < js_length qs.

Definition positions_in_quiz (a : AppState) : Prop :=
  position_ok a (currentQuestionIndex a)
  ∧ ∀ k v, answers a !! k = Some v → position_ok a k.

(** Whether the character [c] occurs in [s]. *)
Fixpoint has_char (c : ascii) (s : string) : bool :=
  match s with
  | EmptyString => false
  | String c' s' => bool_decide (c' = c) || has_char c s'
  end.



(** A text that a double-quoted attribute value holds verbatim: the HTML
    parser ends the value at a double quote, decodes character references
    at an ampersand and replaces a NUL character, and a text input drops
    line breaks from its value. *)
Definition attribute_safe (s : string) : bool :=
  negb (has_char "034" s) && negb (has_char "&" s)
  && negb (has_char "000" s) && negb (has_char "010" s)
  && negb (has_char "013" s).

(** *** Sample data *)

Module Sample.

Definition hidden : Message := {| textContent := ""; display := "none" |}.

Definition empty_card : QuizContent :=
  {| questionNumber := ""; questionType := ""; questionText := "";
     radios := []; shortAnswerInput := None; explanationText := None;
     listening := false |}.

Definition form : Settings :=
  {| questionCount := "3"; difficulty := "medium";
     questionTypes := ["multiple_choice"; "true_false"; "short_answer"];
     includeExplanations := true |}.

(** A freshly loaded page. *)
Definition page : Dom :=
  {| uploadArea_display := "block"; fileList_display := "none";
     filesContainer := []; fileInput_value := "";
     settingsSection_display := "none"; quizSection_display := "none";
     loadingOverlay_display := "none";
     errorMessage := hidden; successMessage := hidden;
     currentQuestion := "1"; totalQuestions := "1";
     quizContent := empty_card;
     prevBtn_disabled := false; nextBtn_disabled := false;
     settings := form |}.

Definition notes : File.t := File.mk "lecture.notes.PDF" 20480.
Definition program : File.t := File.mk "setup.exe" 1024.
Definition huge : File.t := File.mk "scan.pdf" (10 * 1024 * 1024 + 1).

Definition mc : Question.t :=
  Question.mk "multiple_choice" "Capital of France?"
    (Some ["Rome"; "Paris"; "Oslo"]) (Some "Paris is the capital.").
Definition tf : Question.t :=
  Question.mk "true_false" "The Seine flows through Paris." None None.
Definition sa : Question.t :=
  Question.mk "short_answer" "Name the capital of France." None None.
Definition other : Question.t :=
  Question.mk "true_false" "Oslo is in Norway." None None.

Definition delivered (qs : list Question.t) : FetchResult :=
  Response true (BodyData (Some qs)).

(** One file uploaded, the settings confirmed, one request in flight. *)
Definition upload : list Event :=
  [EvAddFiles [notes]; EvHandleGenerateQuiz; EvGenerateQuiz].

Definition generating : World := run upload (world0 page 0).

(** A quiz of three questions loaded, the second option of the first
    question selected. *)
Definition review : list Event :=
  upload ++ [EvDeliver 0 (delivered [mc; tf; sa]); EvSelectRadio 1].

Definition reviewing : World := run review (world0 page 0).

(** The service answers without a [quiz] key. *)
Definition no_quiz : World :=
  run (upload ++ [EvDeliver 0 (Response true (BodyData None))]) (world0 page 0).

End Sample.

(** * Properties *)

(** ** Reasoning about handlers *)

Lemma bind_normal {A B} (m : M A) (k : A → M B) w a :
  fst (m w) = Normal a → bind m k w = k a (snd (m w)).
Proof. unfold bind. destruct (m w) as [[?|?] ?]; simpl; congruence. Qed.

Lemma bind_throw {A B} (m : M A) (k : A → M B) w e :
  fst (m w) = Throw e → bind m k w = (Throw e, snd (m w)).
Proof. unfold bind. destruct (m w) as [[?|?] ?]; simpl; congruence. Qed.

Lemma bind_app_stable_r {A B} (m : M A) (k : A → M B) w :
  (∀ a, app_stable (k a)) →
  appState (snd (bind m k w)) = appState (snd (m w)).
Proof.
  intros Hk. unfold bind. destruct (m w) as [[a|e] w']; simpl; [apply Hk | done].
Qed.

Lemma app_stable_bind {A B} (m : M A) (k : A → M B) :
  app_stable m → (∀ a, app_stable (k a)) → app_stable (bind m k).
Proof. intros Hm Hk w. rewrite bind_app_stable_r by done. apply Hm. Qed.

Lemma app_stable_ret {A} (a : A) : app_stable (ret a).
Proof. done. Qed.

Lemma app_stable_throw {A} e : app_stable (@throw A e).
Proof. done. Qed.

Lemma app_stable_get : app_stable get.
Proof. done. Qed.

Lemma app_stable_modify_dom f : app_stable (modify_dom f).
Proof. done. Qed.

Lemma app_stable_modify_timers f : app_stable (modify_timers f).
Proof. done. Qed.

Lemma app_stable_modify_inflight f : app_stable (modify_inflight f).
Proof. done. Qed.

Lemma app_stable_elapse dt : app_stable (elapse dt).
Proof. done. Qed.

Lemma app_stable_Date_now : app_stable Date_now.
Proof. done. Qed.

Lemma app_stable_try_catch {A} (body : M A) handler :
  app_stable body → (∀ e, app_stable (handler e)) →
  app_stable (try_catch body handler).
Proof.
  intros Hb Hh w. unfold try_catch. specialize (Hb w).
  destruct (body w) as [[a|e] w']; simpl in *; [done |].
  rewrite Hh. done.
Qed.

Lemma app_stable_try_finally {A} (body : M A) cleanup :
  app_stable body → app_stable cleanup → app_stable (try_finally body cleanup).
Proof.
  intros Hb Hc w. unfold try_finally. specialize (Hb w).
  destruct (body w) as [c w']; simpl in *. specialize (Hc w').
  destruct (cleanup w') as [[?|?] w'']; simpl in *; congruence.
Qed.

Create HintDb js discriminated.

#[local] Hint Resolve app_stable_bind app_stable_ret app_stable_throw
  app_stable_get app_stable_modify_dom app_stable_modify_timers
  app_stable_modify_inflight app_stable_elapse app_stable_Date_now
  app_stable_try_catch app_stable_try_finally : js.

Lemma app_stable_showLoading show : app_stable (showLoading show).
Proof. unfold showLoading. auto with js. Qed.

Lemma app_stable_showError msg : app_stable (showError msg).
Proof. unfold showError. auto with js. Qed.

Lemma app_stable_showSuccess msg : app_stable (showSuccess msg).
Proof. unfold showSuccess. auto with js. Qed.

Lemma app_stable_fire t : app_stable (fire t).
Proof. destruct t; simpl; auto with js. Qed.

#[local] Hint Resolve app_stable_showLoading app_stable_showError
  app_stable_showSuccess app_stable_fire : js.

Lemma app_stable_displayFiles : app_stable displayFiles.
Proof.
  unfold displayFiles. apply app_stable_bind; [auto with js |].
  intros w. case_bool_decide; auto with js.
Qed.

Lemma app_stable_handleGenerateQuiz : app_stable handleGenerateQuiz.
Proof.
  unfold handleGenerateQuiz. apply app_stable_bind; [auto with js |].
  intros w. case_bool_decide; auto with js.
Qed.

Lemma app_stable_updateNavigation : app_stable updateNavigation.
Proof.
  unfold updateNavigation. apply app_stable_bind; [auto with js |].
  intros w. apply app_stable_bind; [auto with js |].
  intros _. destruct (quiz (appState w)); auto with js.
Qed.

Lemma app_stable_displayQuestion : app_stable displayQuestion.
Proof.
  unfold displayQuestion. apply app_stable_bind; [auto with js |].
  intros w. destruct (quiz (appState w)) as [qs|]; [| auto with js].
  case_bool_decide; [auto with js |].
  apply app_stable_bind; [auto with js |]. intros _.
  destruct (js_index qs _) as [q|]; [| auto with js].
  destruct (question_inputs q _) as [[rs input]|e]; auto with js.
Qed.

#[local] Hint Resolve app_stable_displayFiles app_stable_handleGenerateQuiz
  app_stable_updateNavigation app_stable_displayQuestion : js.

Lemma app_stable_displayQuiz : app_stable displayQuiz.
Proof. unfold displayQuiz. auto 10 with js. Qed.

Lemma app_stable_generateQuiz_start : app_stable generateQuiz_start.
Proof. unfold generateQuiz_start. auto 10 with js. Qed.

Lemma app_stable_downloadQuiz dt : app_stable (downloadQuiz dt).
Proof. unfold downloadQuiz. auto 12 with js. Qed.

Lemma app_stable_timeout k : app_stable (timeout k).
Proof.
  unfold timeout. apply app_stable_bind; [auto with js |].
  intros w. destruct (timers w !! k); auto with js.
Qed.

#[local] Hint Resolve app_stable_displayQuiz app_stable_generateQuiz_start
  app_stable_downloadQuiz app_stable_timeout : js.

(** ** The effect of saving and moving on [appState] *)

Lemma saveAnswer_normal w : fst (saveAnswer w) = Normal tt.
Proof.
  unfold saveAnswer, bind, get. simpl.
  destruct (List.filter checked _); [destruct (shortAnswerInput _) |]; done.
Qed.

Lemma saveAnswer_app w :
  appState (snd (saveAnswer w))
  = match pending_answer (quizContent (document w)) with
    | Some s =>
        set_answers (<[currentQuestionIndex (appState w) := JStr s]>
                       (answers (appState w))) (appState w)
    | None => appState w
    end.
Proof.
  unfold saveAnswer, pending_answer, bind, get. simpl.
  destruct (List.filter checked _); [destruct (shortAnswerInput _) |]; done.
Qed.

Lemma saveAnswer_rest w :
  document (snd (saveAnswer w)) = document w
  ∧ inflight (snd (saveAnswer w)) = inflight w
  ∧ timers (snd (saveAnswer w)) = timers w
  ∧ clock (snd (saveAnswer w)) = clock w.
Proof.
  unfold saveAnswer, bind, get. simpl.
  destruct (List.filter checked _); [destruct (shortAnswerInput _) |]; done.
Qed.

Lemma saveAnswer_keeps w :
  quiz (appState (snd (saveAnswer w))) = quiz (appState w)
  ∧ currentQuestionIndex (appState (snd (saveAnswer w)))
    = currentQuestionIndex (appState w)
  ∧ files (appState (snd (saveAnswer w))) = files (appState w).
Proof. rewrite saveAnswer_app. by destruct (pending_answer _). Qed.

Lemma nextQuestion_app w qs :
  quiz (appState w) = Some qs →
  appState (exec nextQuestion w)
  = if bool_decide (currentQuestionIndex (appState w) < js_length qs - 1)
    then set_currentQuestionIndex (currentQuestionIndex (appState w) + 1)
           (appState (exec saveAnswer w))
    else appState w.
Proof.
  intros Hqs. unfold exec, nextQuestion. unfold bind at 1, get. simpl.
  rewrite Hqs. case_bool_decide; [| done].
  rewrite (bind_normal saveAnswer _ w tt (saveAnswer_normal w)).
  rewrite bind_app_stable_r by auto with js. simpl.
  by destruct (saveAnswer_keeps w) as (_ & -> & _).
Qed.

Lemma previousQuestion_app w :
  appState (exec previousQuestion w)
  = if bool_decide (0 < currentQuestionIndex (appState w))
    then set_currentQuestionIndex (currentQuestionIndex (appState w) - 1)
           (appState (exec saveAnswer w))
    else appState w.
Proof.
  unfold exec, previousQuestion. unfold bind at 1, get. simpl.
  case_bool_decide; [| done].
  rewrite (bind_normal saveAnswer _ w tt (saveAnswer_normal w)).
  rewrite bind_app_stable_r by auto with js. simpl.
  by destruct (saveAnswer_keeps w) as (_ & -> & _).
Qed.

(** ** Invariants of [appState] *)

Section Invariant.
Variable I : AppState → Prop.
#[local] Abbreviation inv_stable := (inv_stable I).

Lemma inv_stable_of_app_stable {A} (m : M A) : app_stable m → inv_stable m.
Proof. intros Hm w Hw. by rewrite Hm. Qed.

Lemma inv_stable_bind {A B} (m : M A) (k : A → M B) :
  inv_stable m → (∀ a, inv_stable (k a)) → inv_stable (bind m k).
Proof.
  intros Hm Hk w Hw. unfold bind. specialize (Hm w Hw).
  destruct (m w) as [[a|e] w']; simpl in *; [by apply Hk | done].
Qed.

Lemma inv_stable_modify_app f :
  (∀ a, I a → I (f a)) → inv_stable (modify_app f).
Proof. intros Hf w Hw. by apply Hf. Qed.

Lemma inv_stable_try_catch {A} (body : M A) handler :
  inv_stable body → (∀ e, inv_stable (handler e)) →
  inv_stable (try_catch body handler).
Proof.
  intros Hb Hh w Hw. unfold try_catch. specialize (Hb w Hw).
  destruct (body w) as [[a|e] w']; simpl in *; [done | by apply Hh].
Qed.

Lemma inv_stable_try_finally {A} (body : M A) cleanup :
  inv_stable body → inv_stable cleanup →
  inv_stable (try_finally body cleanup).
Proof.
  intros Hb Hc w Hw. unfold try_finally. specialize (Hb w Hw).
  destruct (body w) as [c w']; simpl in *. specialize (Hc w' Hb).
  by destruct (cleanup w') as [[?|?] w''].
Qed.

(** What is left to check for an invariant: the five ways in which the
    script assigns to [appState]. *)
Hypothesis I_files_append : ∀ a fs,
  I a → I (set_files (files a ++ List.filter isValidFile fs) a).
Hypothesis I_files_splice : ∀ a index,
  I a → I (set_files (splice1 (files a) index) a).
Hypothesis I_files_clear : ∀ a, I a → I (set_files [] a).
Hypothesis I_load : ∀ a q,
  I a → I (set_answers ∅ (set_currentQuestionIndex 0 (set_quiz q a))).
Hypothesis I_retake : ∀ a,
  I a → I (set_answers ∅ (set_currentQuestionIndex 0 a)).
Hypothesis I_save : ∀ a s,
  I a → I (set_answers (<[currentQuestionIndex a := JStr s]> (answers a)) a).
Hypothesis I_previous : ∀ a,
  I a → 0 < currentQuestionIndex a →
  I (set_currentQuestionIndex (currentQuestionIndex a - 1) a).
Hypothesis I_next : ∀ a qs,
  I a → quiz a = Some qs → currentQuestionIndex a < js_length qs - 1 →
  I (set_currentQuestionIndex (currentQuestionIndex a + 1) a).

Ltac stab := solve [apply inv_stable_of_app_stable; auto 12 with js].

Lemma inv_stable_saveAnswer : inv_stable saveAnswer.
Proof.
  intros w Hw. unfold saveAnswer, bind, get. simpl.
  destruct (List.filter checked _) as [|r rs]; simpl.
  - destruct (shortAnswerInput _); simpl; [by apply I_save | done].
  - by apply I_save.
Qed.

Lemma inv_stable_handler e : inv_stable (handler e).
Proof.
  destruct e; simpl.
  - (* addFiles *)
    unfold addFiles. case_bool_decide; [stab |].
    apply inv_stable_bind; [| intros; stab].
    apply inv_stable_modify_app. intros; by apply I_files_append.
  - (* removeFile *)
    unfold removeFile.
    apply inv_stable_bind; [| intros; stab].
    apply inv_stable_modify_app. intros; by apply I_files_splice.
  - (* clearFiles *)
    unfold clearFiles.
    apply inv_stable_bind; [| intros; stab].
    apply inv_stable_modify_app. intros; by apply I_files_clear.
  - stab.
  - stab.
  - (* deliver *)
    unfold deliver. apply inv_stable_bind; [stab |].
    intros w. destruct (inflight w !! k); [| stab].
    apply inv_stable_bind; [stab |]. intros _.
    unfold generateQuiz_resume.
    apply inv_stable_try_finally; [| stab].
    apply inv_stable_try_catch; [| intros; stab].
    unfold generateQuiz_body. destruct r as [msg|ok body];
      [stab |].
    destruct ok; simpl; [| stab].
    destruct body; try stab.
    intros w0 Hw0. unfold bind at 1 2 3. simpl.
    apply (inv_stable_of_app_stable (displayQuiz ;; showSuccess _)); [auto with js |].
    simpl. by apply I_load.
  - (* previousQuestion *)
    intros w Hw. change (I (appState (exec previousQuestion w))).
    rewrite previousQuestion_app. case_bool_decide; [| done].
    destruct (saveAnswer_keeps w) as (_ & Hi & _). unfold exec. rewrite <- Hi.
    apply I_previous; [by apply inv_stable_saveAnswer | lia].
  - (* nextQuestion *)
    intros w Hw. destruct (quiz (appState w)) as [qs|] eqn:Hqs.
    + change (I (appState (exec nextQuestion w))).
      rewrite (nextQuestion_app w qs Hqs). case_bool_decide; [| done].
      destruct (saveAnswer_keeps w) as (Hq & Hi & _). unfold exec. rewrite <- Hi.
      apply (I_next _ qs); [by apply inv_stable_saveAnswer | congruence | lia].
    + unfold nextQuestion, bind, get. simpl. by rewrite Hqs.
  - stab.
  - (* retakeQuiz *)
    intros w Hw. unfold retakeQuiz, bind at 1 2. simpl.
    apply (inv_stable_of_app_stable (displayQuestion ;; updateNavigation)); [auto with js |].
    simpl. by apply I_retake.
  - (* selectRadio *)
    unfold selectRadio.
    apply inv_stable_bind; [stab |]. intros w.
    destruct (radios _ !! k) as [radio|]; [| stab].
    destruct (checked radio); [stab |].
    apply inv_stable_bind; [stab |]. intros _.
    destruct (listening _); [apply inv_stable_saveAnswer | stab].
  - (* typeText *)
    unfold typeText.
    apply inv_stable_bind; [stab |]. intros w.
    destruct (shortAnswerInput _); [| stab].
    apply inv_stable_bind; [stab |]. intros _.
    destruct (listening _); [apply inv_stable_saveAnswer | stab].
  - stab.
  - stab.
  - stab.
Qed.

Lemma inv_run evs w : I (appState w) → I (appState (run evs w)).
Proof.
  revert w. induction evs as [|e evs IH]; intros w Hw; simpl; [done |].
  apply IH. by apply inv_stable_handler.
Qed.

Lemma inv_reachable w : I appState0 → reachable w → I (appState w).
Proof. intros H0 (d & t & evs & ->). by apply inv_run. Qed.
End Invariant.

Lemma index_in_range_reachable w : reachable w → index_in_range (appState w).
Proof.
  apply inv_reachable; unfold index_in_range; simpl; try done.
  - intros a q _ qs -> Hne. unfold js_length. destruct qs; [done | simpl; lia].
  - intros a Ha qs Hqs Hne. specialize (Ha qs Hqs Hne). lia.
  - intros a Ha Hpos qs Hqs Hne. specialize (Ha qs Hqs Hne). lia.
  - intros a qs Ha Hqs Hlt qs' Hqs' Hne. specialize (Ha qs' Hqs' Hne).
    assert (qs' = qs) as -> by congruence. lia.
Qed.

(** ** Uploaded files *)

Lemma split_nonempty sep s : split sep s ≠ [].
Proof.
  destruct s as [|c s]; simpl; [done |].
  case_bool_decide; [done |]. by destruct (split sep s).
Qed.

Lemma split_no_sep sep s : has_char sep s = false → split sep s = [s].
Proof.
  induction s as [|c s IH]; simpl; [done |].
  intros [Hc Hs]%orb_false_iff. rewrite Hc. by rewrite (IH Hs).
Qed.





Lemma isValidFile_spec f :
  isValidFile f = true ↔
  fileExtension f ∈ ["pdf"; "docx"; "txt"; "doc"]
  ∧ File.size f <= 10 * 1024 * 1024.
Proof.
  unfold isValidFile, includes, validExtensions.
  rewrite andb_true_iff, !bool_decide_eq_true. done.
Qed.


Lemma files_are_valid_append a fs :
  files_are_valid a →
  files_are_valid (set_files (files a ++ List.filter isValidFile fs) a).
Proof.
  unfold files_are_valid. simpl. intros Ha. apply Forall_app. split; [done |].
  apply Forall_forall. intros f Hf.
  apply list_elem_of_In, filter_In in Hf. tauto.
Qed.

Lemma files_are_valid_splice a index :
  files_are_valid a → files_are_valid (set_files (splice1 (files a) index) a).
Proof.
  unfold files_are_valid, splice1. simpl. intros Ha. apply Forall_app. split.
  - by apply Forall_take.
  - by apply Forall_drop.
Qed.

Lemma files_are_valid_reachable w : reachable w → files_are_valid (appState w).
Proof.
  apply inv_reachable; try done.
  - apply files_are_valid_append.
  - apply files_are_valid_splice.
  - intros a _. by apply Forall_nil.
  - by apply Forall_nil.
Qed.

Lemma addFiles_files fs w :
  files (appState (exec (addFiles fs) w))
  = files (appState w) ++ List.filter isValidFile fs.
Proof.
  unfold exec, addFiles. case_bool_decide as Hlen.
  - rewrite app_stable_showError.
    destruct (List.filter isValidFile fs); [by rewrite app_nil_r | done].
  - rewrite bind_app_stable_r by auto with js. done.
Qed.



(** ** Recorded answers *)

Lemma answers_are_strings_insert a k s :
  answers_are_strings a →
  answers_are_strings (set_answers (<[k := JStr s]> (answers a)) a).
Proof.
  intros Ha k' v. simpl. rewrite lookup_insert. case_decide.
  - intros [= <-]. by exists s.
  - apply Ha.
Qed.

Lemma answers_are_strings_reachable w :
  reachable w → answers_are_strings (appState w).
Proof.
  apply inv_reachable; try done.
  - intros a s. apply answers_are_strings_insert.
Qed.

Lemma answers_are_strings_saveAnswer w :
  answers_are_strings (appState w) →
  answers_are_strings (appState (exec saveAnswer w)).
Proof.
  intros Hw. unfold exec. rewrite saveAnswer_app.
  destruct (pending_answer _); [by apply answers_are_strings_insert | done].
Qed.

Lemma savedAnswer_not_number a index :
  answers_are_strings a → strict_eq (savedAnswer_of a) (JNum index) = false.
Proof.
  intros Ha. unfold savedAnswer_of.
  destruct (answers a !! currentQuestionIndex a) as [v|] eqn:Hv; [| done].
  destruct (Ha _ _ Hv) as [s ->]. done.
Qed.

Lemma js_mapi_from_unchecked sa (opts : list string) i :
  (∀ index, strict_eq sa (JNum index) = false) →
  Forall (fun r => checked r = false)
    (js_mapi_from i (fun option index =>
       {| value := to_js_string (JNum index);
          checked := strict_eq sa (JNum index);
          label := option |}) opts).
Proof.
  intros Hsa. revert i. induction opts as [|o opts IH]; intros i; simpl.
  - constructor.
  - constructor; [apply Hsa | apply IH].
Qed.

Lemma js_mapi_from_length {A B} (f : A → Z → B) l i :
  length (js_mapi_from i f l) = length l.
Proof. revert i. induction l as [|x l IH]; intros i; simpl; [done | by rewrite IH]. Qed.

Lemma js_index_Some_length {A} (l : list A) i x :
  js_index l i = Some x → 0 <= i < js_length l.
Proof.
  unfold js_index, js_length. case_bool_decide; [| done].
  intros Hx%lookup_lt_Some. lia.
Qed.

Lemma displayQuestion_options w qs q opts :
  quiz (appState w) = Some qs →
  js_index qs (currentQuestionIndex (appState w)) = Some q →
  Question.type q = "multiple_choice" ∨ Question.type q = "fill_in_the_blank" →
  Question.options q = Some opts →
  fst (displayQuestion w) = Normal tt
  ∧ radios (quizContent (document (exec displayQuestion w)))
    = option_radios (savedAnswer_of (appState w)) opts
  ∧ shortAnswerInput (quizContent (document (exec displayQuestion w))) = None.
Proof.
  intros Hqs Hq Htype Hopts.
  pose proof (js_index_Some_length _ _ _ Hq) as Hrange.
  unfold exec, displayQuestion, bind, get. simpl. rewrite Hqs.
  rewrite bool_decide_false by lia. simpl. rewrite Hq.
  unfold question_inputs. rewrite Hopts.
  destruct Htype as [-> | ->]; done.
Qed.

(** C10.  [saveAnswer] stores a string (the [value] of the checked radio,
    or the contents of the text input), so every recorded answer of a
    reachable world is a string; hence, when a [multiple_choice] or
    [fill_in_the_blank] question is displayed, the test
    [savedAnswer === index] is false for every option index and every
    radio is rendered unchecked, whatever answer was recorded. *)
Theorem saved_option_never_checked (w : World) qs q opts :
  reachable w →
  quiz (appState w) = Some qs →
  js_index qs (currentQuestionIndex (appState w)) = Some q →
  Question.type q = "multiple_choice" ∨ Question.type q = "fill_in_the_blank" →
  Question.options q = Some opts →
  appState (exec saveAnswer w)
  = match pending_answer (quizContent (document w)) with
    | Some s =>
        set_answers (<[currentQuestionIndex (appState w) := JStr s]>
                       (answers (appState w))) (appState w)
    | None => appState w
    end
  ∧ (∀ k v, answers (appState (exec saveAnswer w)) !! k = Some v → ∃ s, v = JStr s)
  ∧ (∀ index, strict_eq (savedAnswer_of (appState w)) (JNum index) = false)
  ∧ length (radios (quizContent (document (exec displayQuestion w)))) = length opts
  ∧ Forall (fun r => checked r = false)
      (radios (quizContent (document (exec displayQuestion w)))).
Proof.
  intros Hreach Hqs Hq Htype Hopts.
  pose proof (answers_are_strings_reachable w Hreach) as Hstr.
  destruct (displayQuestion_options w qs q opts Hqs Hq Htype Hopts)
    as (_ & Hradios & _).
  split; [apply saveAnswer_app |].
  split; [apply (answers_are_strings_saveAnswer w Hstr) |].
  split; [intros index; by apply savedAnswer_not_number |].
  rewrite Hradios. unfold option_radios, js_mapi. split.
  - apply js_mapi_from_length.
  - apply js_mapi_from_unchecked. intros index. by apply savedAnswer_not_number.
Qed.

(** ** Navigation *)

Lemma question_inputs_normal q sa :
  renderable q → ∃ r, question_inputs q sa = Normal r.
Proof.
  unfold renderable, question_inputs. intros Hq.
  repeat case_bool_decide; eauto.
  - destruct Hq as [opts ->]; eauto.
  - destruct Hq as [opts ->]; eauto.
Qed.

Lemma js_index_in_range {A} (l : list A) i :
  0 <= i < js_length l → ∃ x, js_index l i = Some x ∧ x ∈ l.
Proof.
  unfold js_index, js_length. intros Hi. rewrite bool_decide_true by lia.
  destruct (lookup_lt_is_Some_2 l (Z.to_nat i)) as [x Hx]; [lia |].
  exists x. split; [done |]. by eapply list_elem_of_lookup_2.
Qed.

(** Rendering a question of a loaded quiz completes normally. *)
Lemma display_normal w qs :
  quiz (appState w) = Some qs →
  0 <= currentQuestionIndex (appState w) < js_length qs →
  Forall renderable qs →
  fst ((displayQuestion ;; updateNavigation) w) = Normal tt.
Proof.
  intros Hqs Hrange Hrend.
  destruct (js_index_in_range qs _ Hrange) as (q & Hq & Hin).
  rewrite Forall_forall in Hrend.
  destruct (question_inputs_normal q (savedAnswer_of (appState w)) (Hrend q Hin))
    as [[rs input] Hinputs].
  assert (Hdisp : fst (displayQuestion w) = Normal tt).
  { unfold displayQuestion, bind, get. simpl. rewrite Hqs.
    rewrite bool_decide_false by lia. simpl. by rewrite Hq, Hinputs. }
  rewrite (bind_normal _ _ _ _ Hdisp).
  unfold updateNavigation, bind, get. simpl.
  rewrite app_stable_displayQuestion, Hqs. done.
Qed.

Lemma nextQuestion_normal w qs :
  quiz (appState w) = Some qs →
  0 <= currentQuestionIndex (appState w) < js_length qs →
  Forall renderable qs →
  fst (nextQuestion w) = Normal tt.
Proof.
  intros Hqs Hrange Hrend. unfold nextQuestion. unfold bind at 1, get. simpl.
  rewrite Hqs. case_bool_decide; [| done].
  rewrite (bind_normal saveAnswer _ w tt (saveAnswer_normal w)).
  unfold bind at 1. simpl.
  destruct (saveAnswer_keeps w) as (Hq' & Hi' & _).
  apply (display_normal _ qs); simpl; [congruence | lia | done].
Qed.

Lemma previousQuestion_normal w qs :
  quiz (appState w) = Some qs →
  0 <= currentQuestionIndex (appState w) < js_length qs →
  Forall renderable qs →
  fst (previousQuestion w) = Normal tt.
Proof.
  intros Hqs Hrange Hrend. unfold previousQuestion. unfold bind at 1, get. simpl.
  case_bool_decide; [| done].
  rewrite (bind_normal saveAnswer _ w tt (saveAnswer_normal w)).
  unfold bind at 1. simpl.
  destruct (saveAnswer_keeps w) as (Hq' & Hi' & _).
  apply (display_normal _ qs); simpl; [congruence | lia | done].
Qed.

(** One navigation call on a loaded quiz: the quiz stays, the index moves
    by one step and is clamped at both ends. *)
Lemma navigate_step w qs dir :
  quiz (appState w) = Some qs →
  0 <= currentQuestionIndex (appState w) < js_length qs →
  quiz (appState (exec (navigate dir) w)) = Some qs
  ∧ currentQuestionIndex (appState (exec (navigate dir) w))
    = match dir with
      | Forward => Z.min (currentQuestionIndex (appState w) + 1) (js_length qs - 1)
      | Back => Z.max (currentQuestionIndex (appState w) - 1) 0
      end.
Proof.
  intros Hqs Hrange. destruct (saveAnswer_keeps w) as (Hq' & _ & _).
  destruct dir; simpl.
  - rewrite previousQuestion_app. case_bool_decide; simpl.
    + unfold exec. rewrite Hq'. split; [done | lia].
    + split; [done | lia].
  - rewrite (nextQuestion_app w qs Hqs). case_bool_decide; simpl.
    + unfold exec. rewrite Hq'. split; [done | lia].
    + split; [done | lia].
Qed.

Lemma navigate_trace_in_range dirs w qs :
  quiz (appState w) = Some qs →
  0 <= currentQuestionIndex (appState w) < js_length qs →
  Forall (fun r => quiz (appState (snd r)) = Some qs
                   ∧ 0 <= currentQuestionIndex (appState (snd r)) < js_length qs)
         (navigate_trace dirs w).
Proof.
  revert w. induction dirs as [|dir dirs IH]; intros w Hqs Hrange; simpl.
  - constructor.
  - destruct (navigate_step w qs dir Hqs Hrange) as [Hq' Hi'].
    unfold exec in Hq', Hi'.
    assert (0 <= currentQuestionIndex (appState (snd (navigate dir w)))
            < js_length qs) by (destruct dir; lia).
    constructor; [done | by apply IH].
Qed.

Lemma navigate_trace_normal dirs w qs :
  quiz (appState w) = Some qs →
  0 <= currentQuestionIndex (appState w) < js_length qs →
  Forall renderable qs →
  Forall (fun r => fst r = Normal tt) (navigate_trace dirs w).
Proof.
  revert w. induction dirs as [|dir dirs IH]; intros w Hqs Hrange Hrend; simpl.
  - constructor.
  - destruct (navigate_step w qs dir Hqs Hrange) as [Hq' Hi'].
    unfold exec in Hq', Hi'. constructor.
    + destruct dir; simpl;
        [by eapply previousQuestion_normal | by eapply nextQuestion_normal].
    + apply IH; [done | destruct dir; lia | done].
Qed.

(** At an end of the quiz the call that would leave it returns normally
    and changes nothing. *)
Lemma navigate_at_end w qs :
  quiz (appState w) = Some qs →
  (currentQuestionIndex (appState w) = js_length qs - 1 →
   nextQuestion w = (Normal tt, w))
  ∧ (currentQuestionIndex (appState w) = 0 →
     previousQuestion w = (Normal tt, w)).
Proof.
  intros Hqs. split; intros Hi.
  - unfold nextQuestion, bind, get. simpl. rewrite Hqs.
    by rewrite bool_decide_false by lia.
  - unfold previousQuestion, bind, get. simpl.
    by rewrite bool_decide_false by lia.
Qed.

(** C3.  In a reachable world with a loaded, non-empty quiz of length
    [len], after each call of any finite sequence of navigation calls
    (forward or backward) the quiz is still loaded and
    [currentQuestionIndex] lies in [0, len-1]; a call moves the index by
    one step clamped at the ends (no wrap-around); at an end, the call
    that would leave the quiz returns normally and changes nothing; no
    call of the sequence throws when the questions are renderable; and
    five forward steps from index 0 on a quiz of three questions end at
    index 2. *)
Theorem navigation_stays_in_range (w : World) qs (dirs : list Direction) :
  reachable w →
  quiz (appState w) = Some qs →
  qs ≠ [] →
  Forall (fun r => quiz (appState (snd r)) = Some qs
                   ∧ 0 <= currentQuestionIndex (appState (snd r)) <= js_length qs - 1)
         (navigate_trace dirs w)
  ∧ (∀ dir,
       currentQuestionIndex (appState (exec (navigate dir) w))
       = match dir with
         | Forward => Z.min (currentQuestionIndex (appState w) + 1) (js_length qs - 1)
         | Back => Z.max (currentQuestionIndex (appState w) - 1) 0
         end)
  ∧ (currentQuestionIndex (appState w) = js_length qs - 1 →
     nextQuestion w = (Normal tt, w))
  ∧ (currentQuestionIndex (appState w) = 0 →
     previousQuestion w = (Normal tt, w))
  ∧ (Forall renderable qs →
     Forall (fun r => fst r = Normal tt) (navigate_trace dirs w))
  ∧ (length qs = 3%nat → currentQuestionIndex (appState w) = 0 →
     currentQuestionIndex
       (appState (navigate_all [Forward; Forward; Forward; Forward; Forward] w))
     = 2).
Proof.
  intros Hreach Hqs Hne.
  pose proof (index_in_range_reachable w Hreach qs Hqs Hne) as Hrange.
  split; [| split; [| split; [| split; [| split]]]].
  - eapply Forall_impl; [by apply navigate_trace_in_range |].
    simpl. intros r [? ?]. split; [done | lia].
  - intros dir. by apply navigate_step.
  - by apply (navigate_at_end w qs).
  - by apply (navigate_at_end w qs).
  - intros Hrend. by eapply navigate_trace_normal.
  - intros Hlen H0. unfold navigate_all. simpl.
    assert (Hlen' : js_length qs = 3) by (unfold js_length; lia).
    pose proof (navigate_step w qs Forward Hqs Hrange) as [Hq1 Hi1].
    simpl in Hq1, Hi1.
    pose proof (navigate_step _ qs Forward Hq1 ltac:(lia)) as [Hq2 Hi2].
    simpl in Hq2, Hi2.
    pose proof (navigate_step _ qs Forward Hq2 ltac:(lia)) as [Hq3 Hi3].
    simpl in Hq3, Hi3.
    pose proof (navigate_step _ qs Forward Hq3 ltac:(lia)) as [Hq4 Hi4].
    simpl in Hq4, Hi4.
    pose proof (navigate_step _ qs Forward Hq4 ltac:(lia)) as [Hq5 Hi5].
    simpl in Hq5, Hi5. lia.
Qed.

(** ** Answers across navigation *)

Lemma saveAnswer_idempotent w : saved (exec saveAnswer w).
Proof.
  unfold saved, exec. rewrite (saveAnswer_app (snd (saveAnswer w))).
  destruct (saveAnswer_rest w) as (-> & _).
  rewrite saveAnswer_app. destruct (pending_answer _) as [s|]; [| done].
  simpl. unfold set_answers. simpl. by rewrite insert_insert_eq.
Qed.

Lemma saveAnswer_keeps_answer w i v :
  answers (appState w) !! i = Some v →
  (currentQuestionIndex (appState w) = i → saved w) →
  answers (appState (exec saveAnswer w)) !! i = Some v.
Proof.
  intros Hv Hsaved.
  destruct (decide (currentQuestionIndex (appState w) = i)) as [Hi|Hi].
  - by rewrite (Hsaved Hi).
  - unfold exec. rewrite saveAnswer_app.
    destruct (pending_answer _); simpl; [by rewrite lookup_insert_ne | done].
Qed.

(** A navigation call either leaves the world as it is (at an end of the
    quiz, or by throwing before it changed anything), or saves and moves
    by one. *)
Lemma navigate_cases dir w :
  exec (navigate dir) w = w
  ∨ appState (exec (navigate dir) w)
    = set_currentQuestionIndex
        (currentQuestionIndex (appState w)
         + match dir with Forward => 1 | Back => -1 end)
        (appState (exec saveAnswer w)).
Proof.
  destruct dir; simpl.
  - rewrite previousQuestion_app. unfold exec, previousQuestion.
    unfold bind at 1, get. simpl. case_bool_decide; [by right | by left].
  - destruct (quiz (appState w)) as [qs|] eqn:Hqs.
    + rewrite (nextQuestion_app w qs Hqs). unfold exec, nextQuestion.
      unfold bind at 1, get. simpl. rewrite Hqs.
      case_bool_decide; [by right | by left].
    + left. unfold exec, nextQuestion, bind, get. simpl. by rewrite Hqs.
Qed.

Lemma navigate_keeps_answer dir w i v :
  answers (appState w) !! i = Some v →
  (currentQuestionIndex (appState w) = i → saved w) →
  answers (appState (exec (navigate dir) w)) !! i = Some v.
Proof.
  intros Hv Hsaved. destruct (navigate_cases dir w) as [-> | ->]; [done |].
  simpl. by apply saveAnswer_keeps_answer.
Qed.

Lemma navigate_saved_or_away dir w i :
  currentQuestionIndex (appState w) = i → saved w →
  currentQuestionIndex (appState (exec (navigate dir) w)) = i →
  saved (exec (navigate dir) w).
Proof.
  intros Hi Hsaved. destruct (navigate_cases dir w) as [-> | ->]; [done |].
  simpl. destruct dir; lia.
Qed.

(** C4.  Once [saveAnswer] has recorded the value [v] for the current
    question [i], going one question forward and one back (or one back and
    one forward) leaves [answers[i]] equal to [v]; and when the quiz has a
    question on that side, the two moves return to [i]. *)
Theorem recorded_answer_round_trip (w : World) (v : JsVal) :
  answers (appState (exec saveAnswer w)) !! currentQuestionIndex (appState w)
  = Some v →
  answers (appState (exec previousQuestion (exec nextQuestion (exec saveAnswer w))))
    !! currentQuestionIndex (appState w) = Some v
  ∧ answers (appState (exec nextQuestion (exec previousQuestion (exec saveAnswer w))))
    !! currentQuestionIndex (appState w) = Some v
  ∧ (∀ qs, quiz (appState w) = Some qs →
       0 <= currentQuestionIndex (appState w) < js_length qs - 1 →
       currentQuestionIndex
         (appState (exec previousQuestion (exec nextQuestion (exec saveAnswer w))))
       = currentQuestionIndex (appState w))
  ∧ (∀ qs, quiz (appState w) = Some qs →
       0 < currentQuestionIndex (appState w) < js_length qs →
       currentQuestionIndex
         (appState (exec nextQuestion (exec previousQuestion (exec saveAnswer w))))
       = currentQuestionIndex (appState w)).
Proof.
  intros Hv. set (i := currentQuestionIndex (appState w)) in *.
  set (w1 := exec saveAnswer w) in *.
  destruct (saveAnswer_keeps w) as (Hq1 & Hi1 & _).
  fold (exec saveAnswer w) in Hq1, Hi1. fold w1 in Hq1, Hi1. fold i in Hi1.
  assert (Hs1 : saved w1) by apply saveAnswer_idempotent.
  split; [| split; [| split]].
  - apply (navigate_keeps_answer Back).
    + by apply (navigate_keeps_answer Forward).
    + by apply (navigate_saved_or_away Forward w1 i).
  - apply (navigate_keeps_answer Forward).
    + by apply (navigate_keeps_answer Back).
    + by apply (navigate_saved_or_away Back w1 i).
  - intros qs Hqs Hrange. rewrite <- Hq1 in Hqs.
    destruct (navigate_step w1 qs Forward Hqs ltac:(lia)) as [Hq2 Hi2].
    destruct (navigate_step _ qs Back Hq2 ltac:(lia)) as [_ Hi3].
    simpl in *. lia.
  - intros qs Hqs Hrange. rewrite <- Hq1 in Hqs.
    destruct (navigate_step w1 qs Back Hqs ltac:(lia)) as [Hq2 Hi2].
    destruct (navigate_step _ qs Forward Hq2 ltac:(lia)) as [_ Hi3].
    simpl in *. lia.
Qed.

(** ** Loading, retaking and exporting *)

Lemma try_finally_app {A} (body : M A) cleanup w :
  app_stable cleanup →
  appState (snd (try_finally body cleanup w)) = appState (snd (body w)).
Proof.
  intros Hc. unfold try_finally. destruct (body w) as [c w']. simpl.
  specialize (Hc w'). by destruct (cleanup w') as [[?|?] w''].
Qed.

Lemma try_catch_app {A} (body : M A) handler w :
  (∀ e, app_stable (handler e)) →
  appState (snd (try_catch body handler w)) = appState (snd (body w)).
Proof.
  intros Hh. unfold try_catch. destruct (body w) as [[a|e] w']; simpl; [done |].
  apply Hh.
Qed.

Lemma generateQuiz_resume_app r w :
  appState (exec (generateQuiz_resume r) w)
  = match r with
    | Response true (BodyData q) =>
        set_answers ∅ (set_currentQuestionIndex 0 (set_quiz q (appState w)))
    | _ => appState w
    end.
Proof.
  unfold exec, generateQuiz_resume.
  rewrite try_finally_app, try_catch_app by auto with js.
  destruct r as [msg|[|] [msg| |q]]; try done.
  unfold generateQuiz_body. unfold bind at 1 2 3. simpl.
  by rewrite (app_stable_bind displayQuiz _) by auto with js.
Qed.

(** What the page shows once [displayQuestion] has rendered question [q]
    as number [n]. *)
Lemma displayQuestion_card w qs q :
  quiz (appState w) = Some qs →
  js_index qs (currentQuestionIndex (appState w)) = Some q →
  renderable q →
  fst (displayQuestion w) = Normal tt
  ∧ currentQuestion (document (exec displayQuestion w))
    = to_js_string (JNum (currentQuestionIndex (appState w) + 1))
  ∧ totalQuestions (document (exec displayQuestion w))
    = to_js_string (JNum (js_length qs))
  ∧ questionType (quizContent (document (exec displayQuestion w)))
    = Question.type q
  ∧ questionText (quizContent (document (exec displayQuestion w)))
    = Question.question q
  ∧ explanationText (quizContent (document (exec displayQuestion w)))
    = shown_explanation q.
Proof.
  intros Hqs Hq Hrend.
  pose proof (js_index_Some_length _ _ _ Hq) as Hrange.
  destruct (question_inputs_normal q (savedAnswer_of (appState w)) Hrend)
    as [[rs input] Hinputs].
  unfold exec, displayQuestion, bind, get. simpl. rewrite Hqs.
  rewrite bool_decide_false by lia. simpl. rewrite Hq, Hinputs. done.
Qed.

Lemma load_renders_first w q0 rest :
  renderable q0 →
  fst (generateQuiz_resume (Response true (BodyData (Some (q0 :: rest)))) w)
  = Normal tt
  ∧ currentQuestion
      (document (exec (generateQuiz_resume
                         (Response true (BodyData (Some (q0 :: rest))))) w))
    = "1"
  ∧ questionType
      (quizContent
         (document (exec (generateQuiz_resume
                            (Response true (BodyData (Some (q0 :: rest))))) w)))
    = Question.type q0
  ∧ questionText
      (quizContent
         (document (exec (generateQuiz_resume
                            (Response true (BodyData (Some (q0 :: rest))))) w)))
    = Question.question q0.
Proof.
  intros Hrend.
  destruct (question_inputs_normal q0 JUndefined Hrend) as [[rs input] Hinputs].
  unfold exec, generateQuiz_resume, try_finally, try_catch, generateQuiz_body,
    displayQuiz, displayQuestion, updateNavigation, showSuccess, showLoading,
    bind, get, modify_app, modify_dom, modify_timers.
  simpl. unfold savedAnswer_of. simpl. rewrite lookup_empty. simpl.
  rewrite Hinputs. simpl. done.
Qed.

(** C5.  When a non-empty question sequence [qs] is loaded, [appState.quiz]
    is [qs], [appState.answers] is empty, [currentQuestionIndex] is 0, the
    question at the current index is element 0 of [qs], and (when that
    element is renderable) it is the question that the page displays, as
    number 1. *)
Theorem load_starts_at_first_question (w : World) (q0 : Question.t) rest :
  quiz (appState (exec (generateQuiz_resume
                          (Response true (BodyData (Some (q0 :: rest))))) w))
  = Some (q0 :: rest)
  ∧ answers (appState (exec (generateQuiz_resume
                               (Response true (BodyData (Some (q0 :: rest))))) w))
    = ∅
  ∧ currentQuestionIndex
      (appState (exec (generateQuiz_resume
                         (Response true (BodyData (Some (q0 :: rest))))) w))
    = 0
  ∧ js_index (q0 :: rest)
      (currentQuestionIndex
         (appState (exec (generateQuiz_resume
                            (Response true (BodyData (Some (q0 :: rest))))) w)))
    = Some q0
  ∧ (renderable q0 →
     fst (generateQuiz_resume (Response true (BodyData (Some (q0 :: rest)))) w)
     = Normal tt
     ∧ currentQuestion
         (document (exec (generateQuiz_resume
                            (Response true (BodyData (Some (q0 :: rest))))) w))
       = "1"
     ∧ questionType
         (quizContent
            (document (exec (generateQuiz_resume
                               (Response true (BodyData (Some (q0 :: rest))))) w)))
       = Question.type q0
     ∧ questionText
         (quizContent
            (document (exec (generateQuiz_resume
                               (Response true (BodyData (Some (q0 :: rest))))) w)))
       = Question.question q0).
Proof.
  rewrite generateQuiz_resume_app. simpl.
  repeat split; try done. all: by apply load_renders_first.
Qed.

Lemma retakeQuiz_app w :
  appState (exec retakeQuiz w)
  = set_answers ∅ (set_currentQuestionIndex 0 (appState w)).
Proof.
  unfold exec, retakeQuiz. unfold bind at 1 2. simpl.
  by rewrite (app_stable_bind displayQuestion _) by auto with js.
Qed.

(** C6.  After [retakeQuiz] on a loaded quiz, [appState.answers] has no
    entry, [currentQuestionIndex] is 0, and [appState.quiz] is the same
    sequence as before. *)
Theorem retake_clears_answers (w : World) qs :
  quiz (appState w) = Some qs →
  answers (appState (exec retakeQuiz w)) = ∅
  ∧ (∀ k, answers (appState (exec retakeQuiz w)) !! k = None)
  ∧ currentQuestionIndex (appState (exec retakeQuiz w)) = 0
  ∧ quiz (appState (exec retakeQuiz w)) = Some qs.
Proof.
  intros Hqs. rewrite retakeQuiz_app. simpl. repeat split; try done.
Qed.

(** C7 (amended).  [downloadQuiz] produces the record
    [{questions, answers, timestamp}] in which [questions] is the current
    [appState.quiz], [answers] the current [appState.answers], and
    [timestamp] the ISO-8601 string of the clock at the time of the call
    (no time is recorded when a quiz is loaded). *)
Theorem download_timestamp_is_export_time (w : World) (dt : Z) :
  ∃ d, fst (downloadQuiz dt w) = Normal d
       ∧ qd_questions (content d) = quiz (appState w)
       ∧ qd_answers (content d) = answers (appState w)
       ∧ qd_timestamp (content d) = toISOString (clock w).
Proof. eexists. unfold downloadQuiz, bind, get, Date_now, elapse. simpl. done. Qed.

(** C7, as stated, fails: a quiz loaded when the clock reads 0 and exported
    one second later carries the time of the export, not the time of the
    load. *)
Lemma download_timestamp_not_load_time :
  clock Sample.reviewing = 0
  ∧ exported_timestamp 0 (exec (elapse 1000) Sample.reviewing)
    = Some "1970-01-01T00:00:01.000Z"
  ∧ exported_timestamp 0 (exec (elapse 1000) Sample.reviewing)
    ≠ Some (toISOString (clock Sample.reviewing)).
Proof. vm_compute. repeat split; congruence. Qed.

(** ** Failed and empty generation *)

Lemma generateQuiz_resume_failure r reason w :
  failure_reason r = Some reason →
  fst (generateQuiz_resume r w) = Normal tt
  ∧ appState (exec (generateQuiz_resume r) w) = appState w
  ∧ errorMessage (document (exec (generateQuiz_resume r) w))
    = {| textContent := reason; display := "block" |}.
Proof.
  intros Hr. rewrite generateQuiz_resume_app.
  destruct r as [msg|[|] [msg| |q]]; simpl in Hr; inversion Hr; subst; done.
Qed.




(** ** Overlapping generation requests *)

Lemma generateQuiz_start_accepts w :
  generateQuiz_start w
  = (Normal tt,
     {| appState := appState w;
        document := set_quizSection_display "none"
                      (set_loadingOverlay_display "flex" (document w));
        inflight := inflight w ++ [formData_of w];
        timers := timers w;
        clock := clock w |}).
Proof. done. Qed.

(** C1 on the code.  With one request in flight, a second [generateQuiz]
    completes normally: no error is displayed, [isGenerating] is still
    [false], and a second request is in flight.  When the first request is
    then answered with one quiz and the second with another, the page ends
    with the quiz of the second request; without the second call it ends
    with the quiz of the first. *)
Theorem second_generateQuiz_is_accepted :
  length (inflight Sample.generating) = 1%nat
  ∧ isGenerating (appState Sample.generating) = false
  ∧ fst (generateQuiz_start Sample.generating) = Normal tt
  ∧ errorMessage (document (exec generateQuiz_start Sample.generating))
    = errorMessage (document Sample.generating)
  ∧ length (inflight (exec generateQuiz_start Sample.generating)) = 2%nat
  ∧ quiz (appState (run [EvDeliver 0 (Sample.delivered [Sample.mc; Sample.tf])]
                        Sample.generating))
    = Some [Sample.mc; Sample.tf]
  ∧ quiz (appState (run [EvGenerateQuiz;
                         EvDeliver 0 (Sample.delivered [Sample.mc; Sample.tf]);
                         EvDeliver 0 (Sample.delivered [Sample.other])]
                        Sample.generating))
    = Some [Sample.other].
Proof. vm_compute. repeat split; reflexivity. Qed.

(** ** Review operations without a quiz *)

(** C8 on the code.  With no quiz loaded, [displayQuestion] reports the
    error "No questions generated" and returns, but [nextQuestion] throws a
    [TypeError] that nothing catches (it reads [appState.quiz.length]), and
    [previousQuestion] at index 0 returns without doing or reporting
    anything. *)
Theorem nextQuestion_without_quiz_throws (w : World) :
  quiz (appState w) = None →
  (fst (displayQuestion w) = Normal tt
   ∧ errorMessage (document (exec displayQuestion w))
     = {| textContent := "No questions generated"; display := "block" |})
  ∧ nextQuestion w = (Throw (cannot_read "length"), w)
  ∧ (currentQuestionIndex (appState w) = 0 →
     previousQuestion w = (Normal tt, w)).
Proof.
  intros Hq. split; [| split].
  - unfold exec, displayQuestion, bind, get. simpl. by rewrite Hq.
  - unfold nextQuestion, bind, get. simpl. by rewrite Hq.
  - intros Hi. unfold previousQuestion, bind, get. simpl. by rewrite Hi.
Qed.


(** ** Sanity checks of the helpers *)

Example toISOString_epoch : toISOString 0 = "1970-01-01T00:00:00.000Z".
Proof. vm_compute. reflexivity. Qed.

Example toISOString_sample :
  toISOString 1700000000123 = "2023-11-14T22:13:20.123Z".
Proof. vm_compute. reflexivity. Qed.

Example toISOString_leap_day :
  toISOString 951782400000 = "2000-02-29T00:00:00.000Z".
Proof. vm_compute. reflexivity. Qed.

Example toISOString_before_epoch :
  toISOString (-1) = "1969-12-31T23:59:59.999Z".
Proof. vm_compute. reflexivity. Qed.

Example split_sample : split "." "a.b.PDF" = ["a"; "b"; "PDF"].
Proof. vm_compute. reflexivity. Qed.

Example fileExtension_sample : fileExtension Sample.notes = "pdf".
Proof. vm_compute. reflexivity. Qed.

(** A name without a dot is its own last piece. *)
Example fileExtension_no_dot : isValidFile (File.mk "pdf" 10) = true.
Proof. vm_compute. reflexivity. Qed.

Example isValidFile_samples :
  List.filter isValidFile [Sample.program; Sample.notes; Sample.huge]
  = [Sample.notes].
Proof. vm_compute. reflexivity. Qed.

Example splice1_samples :
  splice1 [1; 2; 3] 1 = [1; 3] ∧ splice1 [1; 2; 3] (-1) = [1; 2]
  ∧ splice1 [1; 2; 3] 7 = [1; 2; 3].
Proof. vm_compute. repeat split; reflexivity. Qed.

(** The scenario of three questions answered in turn, then exported. *)
Example answer_all_then_export :
  let w := run [EvNext; EvSelectRadio 0; EvNext; EvTypeText "Paris"]
               Sample.reviewing in
  answers (appState w)
  = <[0 := JStr "1"]> (<[1 := JStr "true"]> (<[2 := JStr "Paris"]> ∅))
  ∧ (qd_answers ∘ content) <$> (match fst (downloadQuiz 0 w) with
                                | Normal d => Some d
                                | Throw _ => None
                                end)
    = Some (answers (appState w))
  ∧ quiz (appState w) = Some [Sample.mc; Sample.tf; Sample.sa].
Proof. vm_compute. repeat split; reflexivity. Qed.

(** ** The theorems at work on sample sessions *)

Lemma reachable_generating : reachable Sample.generating.
Proof.
  exists Sample.page, 0, Sample.upload. reflexivity.
Defined.

Lemma reachable_reviewing : reachable Sample.reviewing.
Proof.
  exists Sample.page, 0, Sample.review. reflexivity.
Defined.


Lemma saved_option_never_checked_witness :
  reachable Sample.reviewing
  ∧ answers (appState Sample.reviewing) !! 0 = Some (JStr "1")
  ∧ Forall (fun r => checked r = false)
      (radios (quizContent (document (exec displayQuestion Sample.reviewing)))).
Proof.
  split; [exact reachable_reviewing |].
  split; [vm_compute; reflexivity |].
  refine (proj2 (proj2 (proj2 (proj2
    (saved_option_never_checked Sample.reviewing
       [Sample.mc; Sample.tf; Sample.sa] Sample.mc ["Rome"; "Paris"; "Oslo"]
       reachable_reviewing _ _ _ _))))).
  - vm_compute; reflexivity.
  - vm_compute; reflexivity.
  - left. reflexivity.
  - reflexivity.
Defined.

Lemma navigation_stays_in_range_witness :
  reachable Sample.reviewing
  ∧ quiz (appState Sample.reviewing) = Some [Sample.mc; Sample.tf; Sample.sa]
  ∧ currentQuestionIndex
      (appState (navigate_all [Forward; Forward; Forward; Forward; Forward]
                              Sample.reviewing))
    = 2.
Proof.
  split; [exact reachable_reviewing |].
  split; [vm_compute; reflexivity |].
  refine (proj2 (proj2 (proj2 (proj2 (proj2
    (navigation_stays_in_range Sample.reviewing
       [Sample.mc; Sample.tf; Sample.sa] [Forward; Back]
       reachable_reviewing _ _))))) _ _).
  - vm_compute; reflexivity.
  - discriminate.
  - reflexivity.
  - vm_compute; reflexivity.
Defined.

Lemma recorded_answer_round_trip_witness :
  answers (appState (exec saveAnswer Sample.reviewing))
    !! currentQuestionIndex (appState Sample.reviewing) = Some (JStr "1")
  ∧ answers (appState (exec previousQuestion
                         (exec nextQuestion (exec saveAnswer Sample.reviewing))))
    !! currentQuestionIndex (appState Sample.reviewing) = Some (JStr "1").
Proof.
  split; [vm_compute; reflexivity |].
  refine (proj1 (recorded_answer_round_trip Sample.reviewing (JStr "1") _)).
  vm_compute; reflexivity.
Defined.

Lemma load_starts_at_first_question_witness :
  renderable Sample.mc
  ∧ questionText
      (quizContent
         (document (exec (generateQuiz_resume
                            (Response true (BodyData (Some (Sample.mc :: [Sample.tf])))))
                         Sample.generating)))
    = Question.question Sample.mc.
Proof.
  assert (Hmc : renderable Sample.mc) by (intros _; eexists; reflexivity).
  split; [exact Hmc |].
  exact (proj2 (proj2 (proj2 (proj2 (proj2 (proj2 (proj2
    (load_starts_at_first_question Sample.generating Sample.mc [Sample.tf])))) Hmc)))).
Defined.

Lemma retake_clears_answers_witness :
  quiz (appState Sample.reviewing) = Some [Sample.mc; Sample.tf; Sample.sa]
  ∧ answers (appState (exec retakeQuiz Sample.reviewing)) = ∅.
Proof.
  split; [vm_compute; reflexivity |].
  refine (proj1 (retake_clears_answers Sample.reviewing
                   [Sample.mc; Sample.tf; Sample.sa] _)).
  vm_compute; reflexivity.
Defined.


Lemma nextQuestion_without_quiz_throws_witness :
  quiz (appState Sample.no_quiz) = None
  ∧ quizSection_display (document Sample.no_quiz) = "block"
  ∧ nextQuestion Sample.no_quiz = (Throw (cannot_read "length"), Sample.no_quiz).
Proof.
  split; [vm_compute; reflexivity |].
  split; [vm_compute; reflexivity |].
  refine (proj1 (proj2 (nextQuestion_without_quiz_throws Sample.no_quiz _))).
  vm_compute; reflexivity.
Defined.

(** * Further properties of the script *)

(** ** Parts of the world that a handler leaves alone *)

Lemma keeps_bind {X} (π : World → X) {A B} (m : M A) (k : A → M B) :
  keeps π m → (∀ a, keeps π (k a)) → keeps π (bind m k).
Proof.
  intros Hm Hk w. unfold bind. specialize (Hm w).
  destruct (m w) as [[a|e] w']; simpl in *; [by rewrite Hk | done].
Qed.

Lemma keeps_try_catch {X} (π : World → X) {A} (body : M A) handler :
  keeps π body → (∀ e, keeps π (handler e)) → keeps π (try_catch body handler).
Proof.
  intros Hb Hh w. unfold try_catch. specialize (Hb w).
  destruct (body w) as [[a|e] w']; simpl in *; [done | by rewrite Hh].
Qed.

Lemma keeps_try_finally {X} (π : World → X) {A} (body : M A) cleanup :
  keeps π body → keeps π cleanup → keeps π (try_finally body cleanup).
Proof.
  intros Hb Hc w. unfold try_finally. specialize (Hb w).
  destruct (body w) as [c w']; simpl in *. specialize (Hc w').
  destruct (cleanup w') as [[?|?] w'']; simpl in *; congruence.
Qed.

(** Decomposes a handler into its primitive steps, each of which leaves
    the part at hand alone by computation. *)
Ltac keeps_handler :=
  repeat first
    [ apply keeps_bind; [| intros ?]
    | apply keeps_try_finally
    | apply keeps_try_catch; [| intros ?]
    | solve [intros ?; reflexivity]
    | case_bool_decide
    | case_match
    | progress cbv beta zeta delta
        [displayQuiz generateQuiz_resume generateQuiz_body displayQuestion
         updateNavigation previousQuestion nextQuestion retakeQuiz
         downloadQuiz selectRadio typeText timeout handleGenerateQuiz
         generateQuiz_start saveAnswer fire showError showSuccess
         showLoading deliver addFiles removeFile clearFiles displayFiles] ].

(** Induction on the events that lead to a reachable world. *)
Lemma reachable_rect_events (P : World → Prop) :
  (∀ d t, P (world0 d t)) →
  (∀ w e, reachable w → P w → P (exec (handler e) w)) →
  ∀ w, reachable w → P w.
Proof.
  intros H0 Hstep w (d & t & evs & ->).
  induction evs as [|e evs IH] using rev_ind; [apply H0 |].
  unfold run in *. rewrite fold_left_app. simpl.
  apply Hstep; [by exists d, t, evs | done].
Qed.

(** ** The file list on the page *)

Lemma displayFiles_consistent w : files_view_consistent (exec displayFiles w).
Proof.
  unfold files_view_consistent, exec, displayFiles, bind, get, js_length. simpl.
  destruct (files (appState w)) as [|f fs] eqn:Hf; simpl; rewrite Hf; done.
Qed.

Lemma files_view_consistent_ext w w' :
  files_view w' = files_view w →
  files_view_consistent w → files_view_consistent w'.
Proof.
  unfold files_view, files_view_consistent. intros [= -> -> -> ->]. done.
Qed.

Lemma removeFile_consistent index w :
  files_view_consistent (exec (removeFile index) w).
Proof. unfold exec, removeFile, bind at 1. simpl. apply displayFiles_consistent. Qed.

Lemma clearFiles_consistent w : files_view_consistent (exec clearFiles w).
Proof. done. Qed.

Lemma addFiles_consistent fs w :
  List.filter isValidFile fs ≠ [] →
  files_view_consistent (exec (addFiles fs) w).
Proof.
  intros Hne. unfold exec, addFiles.
  rewrite bool_decide_false
    by (unfold js_length; destruct (List.filter isValidFile fs); [done | simpl; lia]).
  unfold bind at 1. simpl. apply displayFiles_consistent.
Qed.

(** The events that do not go through [addFiles], [removeFile] or
    [clearFiles] leave the file list and its view alone. *)
Lemma keeps_files_view_handler e :
  match e with
  | EvAddFiles _ | EvRemoveFile _ | EvClearFiles => True
  | _ => keeps files_view (handler e)
  end.
Proof. destruct e; simpl; try exact I; keeps_handler. Qed.

(** X1.  After [removeFile], after [clearFiles] and after an [addFiles]
    that accepted a file, the page shows the upload area exactly when
    [appState.files] is empty and otherwise the file list, rendered from
    [appState.files]; and no other event of the page breaks this. *)
Theorem file_list_view_is_consistent (w : World) :
  (∀ index, files_view_consistent (exec (removeFile index) w))
  ∧ files_view_consistent (exec clearFiles w)
  ∧ (∀ fs, List.filter isValidFile fs ≠ [] →
           files_view_consistent (exec (addFiles fs) w))
  ∧ (∀ e, files_view_consistent w →
          files_view_consistent (exec (handler e) w)).
Proof.
  split; [intros; apply removeFile_consistent |].
  split; [apply clearFiles_consistent |].
  split; [intros; by apply addFiles_consistent |].
  intros e Hw.
  destruct e;
    try (apply (files_view_consistent_ext w); [| done];
         match goal with
         | |- files_view (exec (handler ?e) w) = _ =>
             apply (keeps_files_view_handler e)
         end).
  - simpl. destruct (List.filter isValidFile fs) as [|f fs'] eqn:Hfs.
    + apply (files_view_consistent_ext w); [| done].
      unfold exec, addFiles. rewrite Hfs. simpl. done.
    + apply addFiles_consistent. by rewrite Hfs.
  - apply removeFile_consistent.
  - apply clearFiles_consistent.
Qed.

Lemma file_list_view_is_consistent_witness :
  List.filter isValidFile [Sample.program; Sample.notes] ≠ []
  ∧ files_view_consistent
      (exec (addFiles [Sample.program; Sample.notes]) (world0 Sample.page 0)).
Proof.
  assert (H : List.filter isValidFile [Sample.program; Sample.notes] ≠ [])
    by (vm_compute; discriminate).
  split; [exact H |].
  exact (proj1 (proj2 (proj2 (file_list_view_is_consistent (world0 Sample.page 0))))
           [Sample.program; Sample.notes] H).
Defined.

(** ** Removing and adding files *)

Lemma splice1_lookup {A} (l : list A) index (j : nat) :
  0 <= index < js_length l →
  splice1 l index !! j
  = if bool_decide (Z.of_nat j < index) then l !! j else l !! S j.
Proof.
  unfold splice1, splice_start, js_length. intros Hi.
  rewrite bool_decide_false by lia. rewrite Z.min_l by lia.
  case_bool_decide as Hj.
  - rewrite lookup_app_l by (rewrite length_take; lia).
    rewrite lookup_take. case_decide; [done | lia].
  - rewrite lookup_app_r by (rewrite length_take; lia).
    rewrite length_take, lookup_drop. f_equal. lia.
Qed.

Lemma splice1_length {A} (l : list A) index :
  0 <= index < js_length l → length (splice1 l index) = (length l - 1)%nat.
Proof.
  unfold splice1, splice_start, js_length. intros Hi.
  rewrite bool_decide_false by lia. rewrite Z.min_l by lia.
  rewrite length_app, length_take, length_drop. lia.
Qed.

Lemma splice1_past_end {A} (l : list A) index :
  js_length l <= index → splice1 l index = l.
Proof.
  unfold splice1, splice_start, js_length. intros Hi.
  rewrite bool_decide_false by lia. rewrite Z.min_r by lia.
  rewrite Nat2Z.id, firstn_all, drop_ge by lia. apply app_nil_r.
Qed.

Lemma splice1_negative {A} (l : list A) index :
  index < 0 → splice1 l index = splice1 l (Z.max (js_length l + index) 0).
Proof.
  unfold splice1, splice_start, js_length. intros Hi.
  rewrite bool_decide_true by lia.
  rewrite (bool_decide_false (Z.max _ 0 < 0)) by lia.
  by rewrite (Z.min_l (Z.max _ 0)) by lia.
Qed.

Lemma removeFile_app index w :
  appState (exec (removeFile index) w)
  = set_files (splice1 (files (appState w)) index) (appState w).
Proof.
  unfold exec, removeFile. by rewrite bind_app_stable_r by auto with js.
Qed.

(** X2.  [removeFile(index)] with [0 <= index < files.length] removes
    exactly the file at [index]: the files before it keep their place, the
    files after it move up by one, and the list is one shorter.  An index
    at or past the end removes nothing; a negative index counts from the
    end (and removes the first file when it reaches before the start).
    The quiz, the answers and the current index are untouched. *)
Theorem removeFile_removes_one_file (w : World) (index : Z) :
  (0 <= index < js_length (files (appState w)) →
   (∀ j : nat,
      files (appState (exec (removeFile index) w)) !! j
      = if bool_decide (Z.of_nat j < index)
        then files (appState w) !! j else files (appState w) !! S j)
   ∧ length (files (appState (exec (removeFile index) w)))
     = (length (files (appState w)) - 1)%nat)
  ∧ (js_length (files (appState w)) <= index →
     files (appState (exec (removeFile index) w)) = files (appState w))
  ∧ (index < 0 →
     files (appState (exec (removeFile index) w))
     = files (appState (exec (removeFile
                (Z.max (js_length (files (appState w)) + index) 0)) w)))
  ∧ quiz (appState (exec (removeFile index) w)) = quiz (appState w)
  ∧ answers (appState (exec (removeFile index) w)) = answers (appState w)
  ∧ currentQuestionIndex (appState (exec (removeFile index) w))
    = currentQuestionIndex (appState w).
Proof.
  rewrite !removeFile_app. simpl. repeat split; try done.
  - intros j. by apply splice1_lookup.
  - by apply splice1_length.
  - apply splice1_past_end.
  - apply splice1_negative.
Qed.

Lemma removeFile_removes_one_file_witness :
  0 <= 1 < js_length (files (appState
                        (exec (addFiles [Sample.notes; Sample.notes; Sample.notes])
                              (world0 Sample.page 0))))
  ∧ length (files (appState (exec (removeFile 1)
                      (exec (addFiles [Sample.notes; Sample.notes; Sample.notes])
                            (world0 Sample.page 0)))))
    = (length (files (appState
                 (exec (addFiles [Sample.notes; Sample.notes; Sample.notes])
                       (world0 Sample.page 0)))) - 1)%nat.
Proof.
  assert (H : 0 <= 1 < js_length (files (appState
                (exec (addFiles [Sample.notes; Sample.notes; Sample.notes])
                      (world0 Sample.page 0)))))
    by (split; [lia | vm_compute; reflexivity]).
  split; [exact H |].
  exact (proj2 (proj1 (removeFile_removes_one_file _ 1) H)).
Defined.

(** X3.  Adding one accepted file and then removing the last file (index
    [-1], or the former length of the list) gives back the former list of
    files. *)
Theorem addFiles_then_removeFile_last (w : World) (f : File.t) :
  isValidFile f = true →
  files (appState (exec (removeFile (-1)) (exec (addFiles [f]) w)))
  = files (appState w)
  ∧ files (appState (exec (removeFile (js_length (files (appState w))))
                          (exec (addFiles [f]) w)))
    = files (appState w).
Proof.
  intros Hf. rewrite !removeFile_app. simpl. rewrite addFiles_files.
  simpl. rewrite Hf.
  assert (Hlen : js_length (files (appState w) ++ [f])
                 = js_length (files (appState w)) + 1)
    by (unfold js_length; rewrite length_app; simpl; lia).
  assert (Hcut : ∀ l : list File.t,
            take (length l) (l ++ [f]) ++ drop (S (length l)) (l ++ [f]) = l).
  { intros l. rewrite take_app_length, drop_ge by (rewrite length_app; simpl; lia).
    apply app_nil_r. }
  unfold splice1, splice_start. rewrite Hlen.
  rewrite bool_decide_true by lia.
  rewrite (bool_decide_false (js_length _ < 0)) by (unfold js_length; lia).
  rewrite Z.max_l, Z.min_l by (unfold js_length; lia).
  replace (js_length (files (appState w)) + 1 + -1)
    with (js_length (files (appState w))) by lia.
  unfold js_length. rewrite Nat2Z.id. by rewrite Hcut.
Qed.

Lemma addFiles_then_removeFile_last_witness :
  isValidFile Sample.notes = true
  ∧ files (appState (exec (removeFile (-1))
                          (exec (addFiles [Sample.notes]) Sample.generating)))
    = files (appState Sample.generating).
Proof.
  assert (H : isValidFile Sample.notes = true) by (vm_compute; reflexivity).
  split; [exact H |].
  exact (proj1 (addFiles_then_removeFile_last Sample.generating Sample.notes H)).
Defined.

Lemma addFiles_app fs w :
  appState (exec (addFiles fs) w)
  = set_files (files (appState w) ++ List.filter isValidFile fs) (appState w).
Proof.
  unfold exec, addFiles. case_bool_decide as Hlen.
  - rewrite app_stable_showError.
    destruct (List.filter isValidFile fs); [| done].
    rewrite app_nil_r. by destruct (appState w).
  - by rewrite bind_app_stable_r by auto with js.
Qed.

(** X4.  Selecting files in two batches gives the same [appState] as
    selecting them in one batch: [addFiles(fs1)] followed by
    [addFiles(fs2)] leaves the state that [addFiles(fs1 ++ fs2)] leaves;
    nothing but [appState.files] changes, and files are never
    de-duplicated. *)
Theorem addFiles_in_batches (w : World) (fs1 fs2 : list File.t) :
  appState (exec (addFiles fs2) (exec (addFiles fs1) w))
  = appState (exec (addFiles (fs1 ++ fs2)) w)
  ∧ length (files (appState (exec (addFiles fs1) w)))
    = (length (files (appState w))
       + length (List.filter isValidFile fs1))%nat
  ∧ quiz (appState (exec (addFiles fs1) w)) = quiz (appState w)
  ∧ answers (appState (exec (addFiles fs1) w)) = answers (appState w).
Proof.
  rewrite !addFiles_app. simpl. rewrite List.filter_app, length_app.
  repeat split; try done. unfold set_files. simpl. by rewrite app_assoc.
Qed.

(** ** The extension of a file name *)

Lemma split_app_sep sep a b :
  split sep (a +:+ String sep b) = split sep a ++ split sep b.
Proof.
  induction a as [|c a IH]; simpl.
  - by rewrite bool_decide_true.
  - case_bool_decide; [by rewrite IH |].
    rewrite IH. pose proof (split_nonempty sep a) as Hne.
    by destruct (split sep a).
Qed.

Lemma pop_split_app sep a b :
  has_char sep b = false → pop (split sep (a +:+ String sep b)) = Some b.
Proof.
  intros Hb. unfold pop. rewrite split_app_sep, (split_no_sep sep b Hb).
  apply last_snoc.
Qed.

(** X5.  The extension that [addFiles] tests is the part of the name after
    its last dot, lower-cased: a file named [base.ext], where [ext] has no
    dot, is accepted exactly when the lower-cased [ext] is one of [pdf],
    [docx], [txt], [doc] and the size is at most [10*1024*1024].  A name
    without any dot is tested as a whole. *)
Theorem fileExtension_is_after_last_dot (base ext : string) (sz : Z) :
  has_char "." ext = false →
  fileExtension (File.mk (base +:+ "." +:+ ext) sz) = toLowerCase ext
  ∧ (isValidFile (File.mk (base +:+ "." +:+ ext) sz) = true ↔
     toLowerCase ext ∈ ["pdf"; "docx"; "txt"; "doc"] ∧ sz <= 10 * 1024 * 1024)
  ∧ fileExtension (File.mk ext sz) = toLowerCase ext.
Proof.
  intros Hext.
  assert (H1 : fileExtension (File.mk (base +:+ "." +:+ ext) sz) = toLowerCase ext).
  { unfold fileExtension. simpl File.name.
    change (base +:+ "." +:+ ext) with (base +:+ String "." ext).
    by rewrite (pop_split_app "." base ext Hext). }
  split; [done |]. split.
  - rewrite isValidFile_spec, H1. done.
  - unfold fileExtension, pop. simpl File.name.
    by rewrite (split_no_sep "." ext Hext).
Qed.

Lemma fileExtension_is_after_last_dot_witness :
  has_char "." "PDF" = false
  ∧ fileExtension (File.mk ("lecture.notes" +:+ "." +:+ "PDF") 20480)
    = toLowerCase "PDF".
Proof.
  split; [reflexivity |].
  exact (proj1 (fileExtension_is_after_last_dot "lecture.notes" "PDF" 20480 eq_refl)).
Defined.

(** ** What is uploaded *)

Lemma keeps_inflight_handler e :
  match e with
  | EvGenerateQuiz | EvDeliver _ _ => True
  | _ => keeps inflight (handler e)
  end.
Proof. destruct e; simpl; try exact I; keeps_handler. Qed.

Lemma keeps_inflight_generateQuiz_resume r :
  keeps inflight (generateQuiz_resume r).
Proof. keeps_handler. Qed.

Lemma deliver_inflight k r w :
  inflight (exec (deliver k r) w)
  = match inflight w !! k with
    | Some _ => delete k (inflight w)
    | None => inflight w
    end.
Proof.
  unfold exec, deliver. unfold bind at 1, get. simpl.
  destruct (inflight w !! k); [| done].
  unfold bind at 1. simpl. by rewrite keeps_inflight_generateQuiz_resume.
Qed.

(** X6.  Every request that [generateQuiz] has in flight carries only files
    that passed the filter of [addFiles]: in every reachable world, each
    file of each pending upload has an accepted extension and a size of at
    most [10*1024*1024] bytes. *)
Theorem only_valid_files_are_uploaded (w : World) :
  reachable w →
  ∀ fd f, fd ∈ inflight w → f ∈ fd_files fd →
          fileExtension f ∈ ["pdf"; "docx"; "txt"; "doc"]
          ∧ File.size f <= 10 * 1024 * 1024.
Proof.
  intros Hreach.
  assert (Hvalid : uploads_are_valid w).
  { revert w Hreach. apply reachable_rect_events.
    - intros d t. constructor.
    - intros w e Hreach IH. unfold uploads_are_valid in *.
      pose proof (keeps_inflight_handler e) as Hkeep.
      destruct e; cbv beta iota in Hkeep;
        try (unfold exec; by rewrite (Hkeep w)); simpl.
      + apply Forall_app. split; [done |]. constructor; [| constructor].
        simpl. apply (files_are_valid_reachable w Hreach).
      + rewrite deliver_inflight.
        destruct (inflight w !! k); [by apply Forall_delete | done]. }
  intros fd f Hfd Hf. apply isValidFile_spec.
  unfold uploads_are_valid in Hvalid. rewrite Forall_forall in Hvalid.
  specialize (Hvalid fd Hfd). rewrite Forall_forall in Hvalid. auto.
Qed.

Lemma only_valid_files_are_uploaded_witness :
  reachable Sample.generating
  ∧ (∀ fd f, fd ∈ inflight Sample.generating → f ∈ fd_files fd →
             fileExtension f ∈ ["pdf"; "docx"; "txt"; "doc"]
             ∧ File.size f <= 10 * 1024 * 1024).
Proof.
  split; [exact reachable_generating |].
  exact (only_valid_files_are_uploaded Sample.generating reachable_generating).
Defined.

(** X7.  Only [handleGenerateQuiz] checks that a file is selected.  With no
    file it shows "Please select at least one file" and leaves the settings
    section as it is; with a file it opens the settings section.
    [removeFile] never closes the settings section, and [generateQuiz]
    does not look at the number of files: once the last file has been
    removed, [generateQuiz] still completes normally and sends a request
    without any file. *)
Theorem generateQuiz_does_not_check_files (w : World) (index : Z) :
  files (appState (exec (removeFile index) w)) = [] →
  settingsSection_display (document (exec (removeFile index) w))
  = settingsSection_display (document w)
  ∧ fst (generateQuiz_start (exec (removeFile index) w)) = Normal tt
  ∧ (fd_files <$> last (inflight (exec generateQuiz_start
                                       (exec (removeFile index) w))))
    = Some []
  ∧ errorMessage (document (exec generateQuiz_start (exec (removeFile index) w)))
    = errorMessage (document w)
  ∧ errorMessage (document (exec handleGenerateQuiz (exec (removeFile index) w)))
    = {| textContent := "Please select at least one file"; display := "block" |}
  ∧ settingsSection_display
      (document (exec handleGenerateQuiz (exec (removeFile index) w)))
    = settingsSection_display (document w)
  ∧ (∀ fs, List.filter isValidFile fs ≠ [] →
       settingsSection_display
         (document (exec handleGenerateQuiz
                      (exec (addFiles fs) (exec (removeFile index) w))))
       = "block").
Proof.
  intros Hempty.
  assert (Hrm : exec (removeFile index) w
                = {| appState := set_files [] (appState w);
                     document := set_files_view "block" "none" (document w);
                     inflight := inflight w; timers := timers w;
                     clock := clock w |}).
  { rewrite removeFile_app in Hempty. simpl in Hempty.
    unfold exec, removeFile, bind, displayFiles, get. simpl.
    rewrite Hempty. done. }
  rewrite Hrm. repeat split; try done.
  - simpl. by rewrite last_snoc.
  - intros fs Hfs. unfold exec, addFiles.
    rewrite bool_decide_false
      by (unfold js_length; destruct (List.filter isValidFile fs); [done | simpl; lia]).
    unfold bind, modify_app, displayFiles, handleGenerateQuiz, get. simpl.
    destruct (List.filter isValidFile fs) as [|f fs'] eqn:Hf; [done |]. done.
Qed.

Lemma generateQuiz_does_not_check_files_witness :
  files (appState (exec (removeFile 0) Sample.generating)) = []
  ∧ (fd_files <$> last (inflight (exec generateQuiz_start
                                       (exec (removeFile 0) Sample.generating))))
    = Some [].
Proof.
  assert (H : files (appState (exec (removeFile 0) Sample.generating)) = [])
    by (vm_compute; reflexivity).
  split; [exact H |].
  exact (proj1 (proj2 (proj2
           (generateQuiz_does_not_check_files Sample.generating 0 H)))).
Defined.

(** ** Positions in the quiz *)

Lemma positions_in_quiz_reachable w :
  reachable w → positions_in_quiz (appState w).
Proof.
  apply inv_reachable; unfold positions_in_quiz, position_ok; simpl; try done.
  - intros a q _. split; [by left | done].
  - intros a _. split; [by left | done].
  - intros a s [Hi Hk]. split; [done |]. intros k v.
    rewrite lookup_insert. case_decide; [by subst | apply Hk].
  - intros a [Hi Hk] Hpos. split; [| done].
    destruct Hi as [? | (qs & Hqs & ?)]; [lia |]. right. exists qs. split; [done | lia].
  - intros a qs [Hi Hk] Hqs Hlt. split; [| done]. right. exists qs. split; [done |].
    destruct Hi as [? | (qs' & Hqs' & ?)]; [lia |].
    assert (qs' = qs) as -> by congruence. lia.
  - split; [by left | done].
Qed.

(** X8.  In every world the page can reach, [currentQuestionIndex] is never
    negative, it is 0 when no quiz or an empty quiz is loaded, and every
    key of [appState.answers] is either 0 or a position of the loaded
    quiz: an answer is only ever recorded for a question that exists,
    except possibly at key 0. *)
Theorem answers_are_recorded_at_positions (w : World) :
  reachable w →
  0 <= currentQuestionIndex (appState w)
  ∧ (quiz (appState w) = None ∨ quiz (appState w) = Some [] →
     currentQuestionIndex (appState w) = 0)
  ∧ (∀ k v, answers (appState w) !! k = Some v →
            k = 0 ∨ ∃ qs, quiz (appState w) = Some qs ∧ 0 <= k < js_length qs).
Proof.
  intros Hreach.
  destruct (positions_in_quiz_reachable w Hreach) as [Hi Hk].
  split; [| split; [| exact Hk]].
  - destruct Hi as [-> | (qs & _ & ?)]; lia.
  - intros Hq. destruct Hi as [? | (qs & Hqs & Hrange)]; [done |].
    destruct Hq as [Hq | Hq]; rewrite Hq in Hqs; [done |].
    injection Hqs as <-. unfold js_length in Hrange. simpl in Hrange. lia.
Qed.

Lemma answers_are_recorded_at_positions_witness :
  reachable Sample.reviewing
  ∧ 0 <= currentQuestionIndex (appState Sample.reviewing).
Proof.
  split; [exact reachable_reviewing |].
  exact (proj1 (answers_are_recorded_at_positions Sample.reviewing
                  reachable_reviewing)).
Defined.

Lemma navigate_all_snoc dirs dir w :
  navigate_all (dirs ++ [dir]) w = exec (navigate dir) (navigate_all dirs w).
Proof. unfold navigate_all. by rewrite fold_left_app. Qed.

Lemma navigate_all_replicate_range n dir w qs :
  quiz (appState w) = Some qs →
  0 <= currentQuestionIndex (appState w) < js_length qs →
  quiz (appState (navigate_all (replicate n dir) w)) = Some qs
  ∧ currentQuestionIndex (appState (navigate_all (replicate n dir) w))
    = match dir with
      | Forward => Z.min (currentQuestionIndex (appState w) + Z.of_nat n)
                         (js_length qs - 1)
      | Back => Z.max (currentQuestionIndex (appState w) - Z.of_nat n) 0
      end.
Proof.
  intros Hqs Hrange. induction n as [|n [IHq IHi]].
  - simpl. split; [done | destruct dir; lia].
  - replace (replicate (S n) dir) with (replicate n dir ++ [dir])
      by (rewrite <- replicate_S_end; done).
    rewrite navigate_all_snoc.
    destruct (navigate_step (navigate_all (replicate n dir) w) qs dir IHq)
      as [Hq' Hi']; [destruct dir; lia |].
    split; [done |]. rewrite Hi', IHi. destruct dir; lia.
Qed.

(** X9.  On a loaded quiz of length [len] with the index at [i], [n] clicks
    on Next end at index [min (i + n) (len - 1)] and [n] clicks on Previous
    end at index [max (i - n) 0]; the quiz itself is never changed by
    navigation. *)
Theorem navigation_by_n_steps (w : World) qs (n : nat) :
  quiz (appState w) = Some qs →
  0 <= currentQuestionIndex (appState w) < js_length qs →
  currentQuestionIndex (appState (navigate_all (replicate n Forward) w))
  = Z.min (currentQuestionIndex (appState w) + Z.of_nat n) (js_length qs - 1)
  ∧ currentQuestionIndex (appState (navigate_all (replicate n Back) w))
    = Z.max (currentQuestionIndex (appState w) - Z.of_nat n) 0
  ∧ quiz (appState (navigate_all (replicate n Forward) w)) = Some qs
  ∧ quiz (appState (navigate_all (replicate n Back) w)) = Some qs.
Proof.
  intros Hqs Hrange.
  destruct (navigate_all_replicate_range n Forward w qs Hqs Hrange) as [? ?].
  destruct (navigate_all_replicate_range n Back w qs Hqs Hrange) as [? ?].
  done.
Qed.

Lemma navigation_by_n_steps_witness :
  quiz (appState Sample.reviewing) = Some [Sample.mc; Sample.tf; Sample.sa]
  ∧ currentQuestionIndex
      (appState (navigate_all (replicate 7 Forward) Sample.reviewing))
    = Z.min (currentQuestionIndex (appState Sample.reviewing) + Z.of_nat 7)
            (js_length [Sample.mc; Sample.tf; Sample.sa] - 1).
Proof.
  assert (Hq : quiz (appState Sample.reviewing)
               = Some [Sample.mc; Sample.tf; Sample.sa])
    by (vm_compute; reflexivity).
  assert (Hr : 0 <= currentQuestionIndex (appState Sample.reviewing)
               < js_length [Sample.mc; Sample.tf; Sample.sa])
    by (split; vm_compute; [discriminate | reflexivity]).
  split; [exact Hq |].
  exact (proj1 (navigation_by_n_steps Sample.reviewing _ 7 Hq Hr)).
Defined.

(** ** Answers of the other questions *)

Lemma saveAnswer_other w k :
  k ≠ currentQuestionIndex (appState w) →
  answers (appState (exec saveAnswer w)) !! k = answers (appState w) !! k.
Proof.
  intros Hk. unfold exec. rewrite saveAnswer_app.
  destruct (pending_answer _); simpl; [by rewrite lookup_insert_ne | done].
Qed.

Lemma selectRadio_app k w :
  appState (exec (selectRadio k) w) = appState w
  ∨ ∃ w', currentQuestionIndex (appState w') = currentQuestionIndex (appState w)
          ∧ answers (appState w') = answers (appState w)
          ∧ appState (exec (selectRadio k) w) = appState (exec saveAnswer w').
Proof.
  unfold exec, selectRadio, bind, get. cbv beta iota.
  destruct (radios _ !! k) as [radio|]; [| by left].
  destruct (checked radio); [by left |].
  unfold modify_dom. cbv beta iota. destruct (listening _); [| by left].
  right. eexists. split; [| split]; [| | reflexivity]; done.
Qed.

Lemma typeText_app text w :
  appState (exec (typeText text) w) = appState w
  ∨ ∃ w', currentQuestionIndex (appState w') = currentQuestionIndex (appState w)
          ∧ answers (appState w') = answers (appState w)
          ∧ appState (exec (typeText text) w) = appState (exec saveAnswer w').
Proof.
  unfold exec, typeText, bind, get. cbv beta iota.
  destruct (shortAnswerInput _); [| by left].
  unfold modify_dom. cbv beta iota. destruct (listening _); [| by left].
  right. eexists. split; [| split]; [| | reflexivity]; done.
Qed.

(** X10.  Answering and navigating only ever write the answer of the
    current question: for every key [k] other than
    [currentQuestionIndex], [saveAnswer], [previousQuestion],
    [nextQuestion], a click on a radio and typing into the text input all
    leave [answers[k]] as it was. *)
Theorem other_answers_are_untouched (w : World) (k : Z) :
  k ≠ currentQuestionIndex (appState w) →
  answers (appState (exec saveAnswer w)) !! k = answers (appState w) !! k
  ∧ answers (appState (exec previousQuestion w)) !! k = answers (appState w) !! k
  ∧ answers (appState (exec nextQuestion w)) !! k = answers (appState w) !! k
  ∧ (∀ i, answers (appState (exec (selectRadio i) w)) !! k
          = answers (appState w) !! k)
  ∧ (∀ text, answers (appState (exec (typeText text) w)) !! k
             = answers (appState w) !! k).
Proof.
  intros Hk. split; [by apply saveAnswer_other |].
  split; [| split; [| split]].
  - destruct (navigate_cases Back w) as [H | H]; simpl in H; rewrite H; [done |].
    simpl. by apply saveAnswer_other.
  - destruct (navigate_cases Forward w) as [H | H]; simpl in H; rewrite H; [done |].
    simpl. by apply saveAnswer_other.
  - intros i. destruct (selectRadio_app i w) as [-> | (w' & Hi & Ha & ->)]; [done |].
    rewrite saveAnswer_other by congruence. by rewrite Ha.
  - intros text.
    destruct (typeText_app text w) as [-> | (w' & Hi & Ha & ->)]; [done |].
    rewrite saveAnswer_other by congruence. by rewrite Ha.
Qed.

Lemma other_answers_are_untouched_witness :
  0 ≠ currentQuestionIndex (appState (exec nextQuestion Sample.reviewing))
  ∧ answers (appState (exec (selectRadio 0) (exec nextQuestion Sample.reviewing)))
      !! 0
    = answers (appState (exec nextQuestion Sample.reviewing)) !! 0.
Proof.
  assert (H : 0 ≠ currentQuestionIndex
                    (appState (exec nextQuestion Sample.reviewing)))
    by (vm_compute; discriminate).
  split; [exact H |].
  exact (proj1 (proj2 (proj2 (proj2
           (other_answers_are_untouched (exec nextQuestion Sample.reviewing) 0 H))))
         0%nat).
Defined.

(** ** What a revisited question shows *)

Lemma displayQuestion_renders w qs q rs input :
  quiz (appState w) = Some qs →
  js_index qs (currentQuestionIndex (appState w)) = Some q →
  question_inputs q (savedAnswer_of (appState w)) = Normal (rs, input) →
  fst (displayQuestion w) = Normal tt
  ∧ appState (exec displayQuestion w) = appState w
  ∧ radios (quizContent (document (exec displayQuestion w))) = rs
  ∧ shortAnswerInput (quizContent (document (exec displayQuestion w))) = input.
Proof.
  intros Hqs Hq Hinputs.
  pose proof (js_index_Some_length _ _ _ Hq) as Hrange.
  unfold exec, displayQuestion, bind, get. simpl. rewrite Hqs.
  rewrite bool_decide_false by lia. simpl. by rewrite Hq, Hinputs.
Qed.

Lemma displayQuestion_listens w qs q rs input :
  quiz (appState w) = Some qs →
  js_index qs (currentQuestionIndex (appState w)) = Some q →
  question_inputs q (savedAnswer_of (appState w)) = Normal (rs, input) →
  listening (quizContent (document (exec displayQuestion w))) = true.
Proof.
  intros Hqs Hq Hinputs.
  pose proof (js_index_Some_length _ _ _ Hq) as Hrange.
  unfold exec, displayQuestion, bind, get. simpl. rewrite Hqs.
  rewrite bool_decide_false by lia. simpl. by rewrite Hq, Hinputs.
Qed.

Lemma save_recorded_is_noop w s :
  pending_answer (quizContent (document w)) = Some s →
  answers (appState w) !! currentQuestionIndex (appState w) = Some (JStr s) →
  appState (exec saveAnswer w) = appState w.
Proof.
  intros Hp Ha. unfold exec. rewrite saveAnswer_app, Hp.
  rewrite (insert_id _ _ _ Ha). by destruct (appState w).
Qed.

(** X11.  The answer of a [true_false] question is restored when the
    question is displayed again: if "true" or "false" is recorded for the
    current question, [displayQuestion] renders the radio with that value
    checked and the other unchecked, so that saving again records the same
    value. *)
Theorem true_false_answer_is_restored (w : World) qs q (s : string) :
  quiz (appState w) = Some qs →
  js_index qs (currentQuestionIndex (appState w)) = Some q →
  Question.type q = "true_false" →
  answers (appState w) !! currentQuestionIndex (appState w) = Some (JStr s) →
  s = "true" ∨ s = "false" →
  radios (quizContent (document (exec displayQuestion w)))
  = [ {| value := "true"; checked := bool_decide (s = "true"); label := "True" |};
      {| value := "false"; checked := bool_decide (s = "false"); label := "False" |} ]
  ∧ pending_answer (quizContent (document (exec displayQuestion w))) = Some s
  ∧ appState (exec saveAnswer (exec displayQuestion w)) = appState w.
Proof.
  intros Hqs Hq Htype Ha Hs.
  assert (Hin : question_inputs q (savedAnswer_of (appState w))
                = Normal (true_false_radios (JStr s), None)).
  { unfold question_inputs, savedAnswer_of. rewrite Htype, Ha. done. }
  destruct (displayQuestion_renders w qs q _ _ Hqs Hq Hin) as (_ & Happ & Hr & Hi).
  assert (Hp : pending_answer (quizContent (document (exec displayQuestion w)))
               = Some s).
  { unfold pending_answer. rewrite Hr, Hi. by destruct Hs as [-> | ->]. }
  split; [by rewrite Hr |]. split; [done |].
  rewrite (save_recorded_is_noop _ s Hp); [done |]. by rewrite Happ.
Qed.

Lemma true_false_answer_is_restored_witness :
  Question.type Sample.tf = "true_false"
  ∧ pending_answer
      (quizContent (document (exec displayQuestion
         (run [EvNext; EvSelectRadio 1; EvNext; EvPrevious] Sample.reviewing))))
    = Some "false".
Proof.
  split; [reflexivity |].
  refine (proj1 (proj2 (true_false_answer_is_restored
    (run [EvNext; EvSelectRadio 1; EvNext; EvPrevious] Sample.reviewing)
    [Sample.mc; Sample.tf; Sample.sa] Sample.tf "false" _ _ _ _ _))).
  - vm_compute; reflexivity.
  - vm_compute; reflexivity.
  - reflexivity.
  - vm_compute; reflexivity.
  - by right.
Defined.

(** X12.  A [short_answer] question whose recorded text is one that an
    attribute value holds verbatim (no double quote, ampersand, NUL or
    line break) is displayed with that text in the input, and saving again
    changes nothing.  When nothing is recorded yet, the input is displayed
    empty, and leaving the question with Next records the empty string as
    its answer. *)
Theorem short_answer_is_prefilled (w : World) qs q :
  quiz (appState w) = Some qs →
  js_index qs (currentQuestionIndex (appState w)) = Some q →
  Question.type q = "short_answer" →
  radios (quizContent (document (exec displayQuestion w))) = []
  ∧ (∀ s, answers (appState w) !! currentQuestionIndex (appState w)
          = Some (JStr s) →
          attribute_safe s = true →
          shortAnswerInput (quizContent (document (exec displayQuestion w)))
          = Some s
          ∧ appState (exec saveAnswer (exec displayQuestion w)) = appState w)
  ∧ (answers (appState w) !! currentQuestionIndex (appState w) = None →
     shortAnswerInput (quizContent (document (exec displayQuestion w)))
     = Some ""
     ∧ (currentQuestionIndex (appState w) < js_length qs - 1 →
        answers (appState (exec nextQuestion (exec displayQuestion w)))
          !! currentQuestionIndex (appState w) = Some (JStr ""))).
Proof.
  intros Hqs Hq Htype.
  assert (Hin : question_inputs q (savedAnswer_of (appState w))
                = Normal ([], Some (to_js_string
                                      (or_empty (savedAnswer_of (appState w)))))).
  { unfold question_inputs. rewrite Htype. done. }
  destruct (displayQuestion_renders w qs q _ _ Hqs Hq Hin) as (_ & Happ & Hr & Hi).
  split; [done |]. split.
  - intros s Ha _.
    assert (Hs : shortAnswerInput (quizContent (document (exec displayQuestion w)))
                 = Some s).
    { rewrite Hi. unfold savedAnswer_of, or_empty. rewrite Ha. simpl.
      case_bool_decide; by subst. }
    split; [done |].
    rewrite (save_recorded_is_noop (exec displayQuestion w) s); [done | |].
    + unfold pending_answer. by rewrite Hr, Hs.
    + by rewrite Happ.
  - intros Ha.
    assert (Hs : shortAnswerInput (quizContent (document (exec displayQuestion w)))
                 = Some "").
    { rewrite Hi. unfold savedAnswer_of. by rewrite Ha. }
    split; [done |]. intros Hlt.
    rewrite (nextQuestion_app _ qs) by (by rewrite Happ).
    rewrite !Happ. rewrite bool_decide_true by done. simpl.
    unfold exec. rewrite saveAnswer_app. unfold pending_answer.
    fold (exec displayQuestion w). rewrite Hr, Hs, Happ. simpl.
    apply lookup_insert_eq.
Qed.

Lemma short_answer_is_prefilled_witness :
  Question.type Sample.sa = "short_answer"
  ∧ attribute_safe "Paris" = true
  ∧ shortAnswerInput
      (quizContent (document (exec displayQuestion
         (run [EvNext; EvNext; EvTypeText "Paris"] Sample.reviewing))))
    = Some "Paris".
Proof.
  split; [reflexivity |]. split; [reflexivity |].
  refine (proj1 (proj1 (proj2 (short_answer_is_prefilled
    (run [EvNext; EvNext; EvTypeText "Paris"] Sample.reviewing)
    [Sample.mc; Sample.tf; Sample.sa] Sample.sa _ _ _)) "Paris" _ _)).
  - vm_compute; reflexivity.
  - vm_compute; reflexivity.
  - reflexivity.
  - vm_compute; reflexivity.
  - reflexivity.
Defined.

Lemma filter_unchecked rs :
  Forall (fun r => checked r = false) rs → List.filter checked rs = [].
Proof. induction 1 as [|r rs Hr _ IH]; simpl; [done | by rewrite Hr]. Qed.

(** X13.  The recorded answer of a [multiple_choice] or
    [fill_in_the_blank] question is not shown when the question is
    displayed again, but it is not lost either: the card then holds
    nothing to save, so [saveAnswer] and a following [nextQuestion] or
    [previousQuestion] leave every recorded answer as it was. *)
Theorem option_answer_survives_revisit (w : World) qs q opts :
  reachable w →
  quiz (appState w) = Some qs →
  js_index qs (currentQuestionIndex (appState w)) = Some q →
  Question.type q = "multiple_choice" ∨ Question.type q = "fill_in_the_blank" →
  Question.options q = Some opts →
  pending_answer (quizContent (document (exec displayQuestion w))) = None
  ∧ appState (exec saveAnswer (exec displayQuestion w)) = appState w
  ∧ answers (appState (exec nextQuestion (exec displayQuestion w)))
    = answers (appState w)
  ∧ answers (appState (exec previousQuestion (exec displayQuestion w)))
    = answers (appState w).
Proof.
  intros Hreach Hqs Hq Htype Hopts.
  pose proof (answers_are_strings_reachable w Hreach) as Hstr.
  destruct (displayQuestion_options w qs q opts Hqs Hq Htype Hopts)
    as (_ & Hr & Hi).
  assert (Hp : pending_answer (quizContent (document (exec displayQuestion w)))
               = None).
  { unfold pending_answer. rewrite Hr, Hi, filter_unchecked; [done |].
    apply js_mapi_from_unchecked. intros index. by apply savedAnswer_not_number. }
  assert (Hsave : appState (exec saveAnswer (exec displayQuestion w)) = appState w).
  { unfold exec at 1. rewrite saveAnswer_app, Hp. apply app_stable_displayQuestion. }
  split; [done |]. split; [done |]. split.
  - destruct (navigate_cases Forward (exec displayQuestion w)) as [H | H];
      simpl in H; rewrite H; [| by rewrite Hsave].
    unfold exec. by rewrite app_stable_displayQuestion.
  - destruct (navigate_cases Back (exec displayQuestion w)) as [H | H];
      simpl in H; rewrite H; [| by rewrite Hsave].
    unfold exec. by rewrite app_stable_displayQuestion.
Qed.

Lemma option_answer_survives_revisit_witness :
  reachable Sample.reviewing
  ∧ answers (appState (exec nextQuestion (exec displayQuestion Sample.reviewing)))
    = answers (appState Sample.reviewing).
Proof.
  split; [exact reachable_reviewing |].
  refine (proj1 (proj2 (proj2 (option_answer_survives_revisit Sample.reviewing
    [Sample.mc; Sample.tf; Sample.sa] Sample.mc ["Rome"; "Paris"; "Oslo"]
    reachable_reviewing _ _ _ _)))).
  - vm_compute; reflexivity.
  - vm_compute; reflexivity.
  - left. reflexivity.
  - reflexivity.
Defined.

(** ** The navigation buttons *)

Lemma updateNavigation_buttons w qs :
  quiz (appState w) = Some qs →
  fst (updateNavigation w) = Normal tt
  ∧ appState (exec updateNavigation w) = appState w
  ∧ buttons_reflect_position qs (exec updateNavigation w).
Proof.
  intros Hqs. unfold buttons_reflect_position, exec, updateNavigation, bind, get.
  simpl. rewrite Hqs. done.
Qed.

Lemma displayQuestion_normal w qs :
  quiz (appState w) = Some qs →
  Forall renderable qs →
  qs = [] ∨ 0 <= currentQuestionIndex (appState w) < js_length qs →
  fst (displayQuestion w) = Normal tt.
Proof.
  intros Hqs Hrend [-> | Hrange].
  - unfold displayQuestion, bind, get. simpl. by rewrite Hqs.
  - destruct (js_index_in_range qs _ Hrange) as (q & Hq & Hin).
    rewrite Forall_forall in Hrend.
    destruct (question_inputs_normal q (savedAnswer_of (appState w)) (Hrend q Hin))
      as [[rs input] Hinputs].
    by destruct (displayQuestion_renders w qs q rs input Hqs Hq Hinputs).
Qed.

Lemma display_then_update w qs :
  quiz (appState w) = Some qs →
  Forall renderable qs →
  qs = [] ∨ 0 <= currentQuestionIndex (appState w) < js_length qs →
  fst ((displayQuestion ;; updateNavigation) w) = Normal tt
  ∧ appState (snd ((displayQuestion ;; updateNavigation) w)) = appState w
  ∧ buttons_reflect_position qs (snd ((displayQuestion ;; updateNavigation) w)).
Proof.
  intros Hqs Hrend Hrange.
  rewrite (bind_normal _ _ _ _ (displayQuestion_normal w qs Hqs Hrend Hrange)).
  assert (Hqs' : quiz (appState (snd (displayQuestion w))) = Some qs)
    by (by rewrite app_stable_displayQuestion).
  destruct (updateNavigation_buttons _ qs Hqs') as (? & Ha & ?).
  unfold exec in Ha. rewrite Ha, app_stable_displayQuestion. done.
Qed.

Lemma previousQuestion_unfold w :
  previousQuestion w
  = if bool_decide (0 < currentQuestionIndex (appState w))
    then (displayQuestion ;; updateNavigation)
           (snd (modify_app
                   (fun a => set_currentQuestionIndex (currentQuestionIndex a - 1) a)
                   (snd (saveAnswer w))))
    else (Normal tt, w).
Proof.
  unfold previousQuestion. unfold bind at 1, get. simpl.
  case_bool_decide; [| done].
  rewrite (bind_normal saveAnswer _ w tt (saveAnswer_normal w)).
  unfold bind at 1. reflexivity.
Qed.

Lemma nextQuestion_unfold w qs :
  quiz (appState w) = Some qs →
  nextQuestion w
  = if bool_decide (currentQuestionIndex (appState w) < js_length qs - 1)
    then (displayQuestion ;; updateNavigation)
           (snd (modify_app
                   (fun a => set_currentQuestionIndex (currentQuestionIndex a + 1) a)
                   (snd (saveAnswer w))))
    else (Normal tt, w).
Proof.
  intros Hqs. unfold nextQuestion. unfold bind at 1, get. simpl. rewrite Hqs.
  case_bool_decide; [| done].
  rewrite (bind_normal saveAnswer _ w tt (saveAnswer_normal w)).
  unfold bind at 1. reflexivity.
Qed.

Lemma navigate_moved dir w :
  exec (navigate dir) w = w
  ∨ ∃ w2,
      appState w2
      = set_currentQuestionIndex
          (currentQuestionIndex (appState w)
           + match dir with Forward => 1 | Back => -1 end)
          (appState (exec saveAnswer w))
      ∧ navigate dir w = (displayQuestion ;; updateNavigation) w2
      ∧ match dir with
        | Back => 0 < currentQuestionIndex (appState w)
        | Forward => ∀ qs, quiz (appState w) = Some qs →
                           currentQuestionIndex (appState w) < js_length qs - 1
        end.
Proof.
  destruct (saveAnswer_keeps w) as (_ & Hi & _).
  destruct dir; simpl.
  - unfold exec. rewrite previousQuestion_unfold.
    case_bool_decide; [| by left]. right.
    eexists. split; [| split; [reflexivity | done]]. simpl. by rewrite Hi.
  - destruct (quiz (appState w)) as [qs|] eqn:Hqs.
    + unfold exec. rewrite (nextQuestion_unfold w qs Hqs).
      case_bool_decide; [| by left]. right.
      eexists. split; [| split; [reflexivity |]].
      * simpl. by rewrite Hi.
      * by intros ? [= <-].
    + left. unfold exec, nextQuestion, bind, get. simpl. by rewrite Hqs.
Qed.

(** X14.  After a navigation call that moved, after [retakeQuiz] and after
    a quiz has been loaded, the Previous button is disabled exactly when
    the index is 0 and the Next button exactly when the index is
    [len - 1] (questions being renderable).  For an empty quiz this leaves
    the Next button enabled. *)
Theorem buttons_follow_position (w : World) qs :
  reachable w →
  quiz (appState w) = Some qs →
  Forall renderable qs →
  (∀ dir, exec (navigate dir) w = w
          ∨ buttons_reflect_position qs (exec (navigate dir) w))
  ∧ buttons_reflect_position qs (exec retakeQuiz w)
  ∧ (∀ w0, buttons_reflect_position qs
             (exec (generateQuiz_resume (Response true (BodyData (Some qs)))) w0))
  ∧ (qs = [] → nextBtn_disabled (document (exec retakeQuiz w)) = false).
Proof.
  intros Hreach Hqs Hrend.
  assert (Hzero : ∀ w', quiz (appState w') = Some qs →
            currentQuestionIndex (appState w') = 0 →
            qs = [] ∨ 0 <= currentQuestionIndex (appState w') < js_length qs).
  { intros w' _ ->. destruct qs; [by left | right].
    unfold js_length. simpl. lia. }
  assert (Hretake : buttons_reflect_position qs (exec retakeQuiz w)).
  { unfold exec, retakeQuiz. unfold bind at 1 2. simpl.
    by apply display_then_update; [| | apply Hzero]. }
  split; [| split; [done | split]].
  - intros dir.
    destruct (navigate_moved dir w) as [? | (w2 & Hw2 & Hnav & Hguard)];
      [by left | right].
    destruct (saveAnswer_keeps w) as (Hq' & Hi' & _).
    assert (Hqs2 : quiz (appState w2) = Some qs)
      by (rewrite Hw2; simpl; unfold exec; congruence).
    assert (Hrange : 0 <= currentQuestionIndex (appState w2) < js_length qs).
    { rewrite Hw2. simpl.
      destruct (positions_in_quiz_reachable w Hreach) as [Hpos _].
      assert (Hpos' : currentQuestionIndex (appState w) = 0
                      ∨ 0 <= currentQuestionIndex (appState w) < js_length qs).
      { destruct Hpos as [? | (qs' & Hqs' & ?)]; [by left | right].
        by assert (qs' = qs) as -> by congruence. }
      destruct dir; [lia |]. specialize (Hguard qs Hqs). lia. }
    unfold exec. rewrite Hnav.
    by apply display_then_update; [| | right].
  - intros w0. unfold exec, generateQuiz_resume, try_finally, try_catch,
      generateQuiz_body, displayQuiz. unfold bind at 1 2 3 4 5. simpl.
    match goal with
    | |- context [(displayQuestion ;; updateNavigation) ?w1] =>
        destruct (display_then_update w1 qs eq_refl Hrend (Hzero w1 eq_refl eq_refl))
          as (Hn & _ & Hb);
        destruct ((displayQuestion ;; updateNavigation) w1) as [c w'] eqn:Hrun
    end.
    simpl in Hn, Hb. rewrite Hn. exact Hb.
  - intros ->. destruct Hretake as [_ ->]. by rewrite retakeQuiz_app.
Qed.

Lemma renderable_samples : Forall renderable [Sample.mc; Sample.tf; Sample.sa].
Proof.
  repeat first [apply Forall_nil_2 | apply Forall_cons_2];
    intros Htype; first [by eexists | destruct Htype; discriminate].
Qed.

Lemma buttons_follow_position_witness :
  reachable Sample.reviewing
  ∧ buttons_reflect_position [Sample.mc; Sample.tf; Sample.sa]
      (exec retakeQuiz Sample.reviewing).
Proof.
  split; [exact reachable_reviewing |].
  refine (proj1 (proj2 (buttons_follow_position Sample.reviewing
    [Sample.mc; Sample.tf; Sample.sa] reachable_reviewing _ _))).
  - vm_compute; reflexivity.
  - exact renderable_samples.
Defined.

(** ** Messages and their timers *)

(** X15.  [showError] never cancels the timer of an earlier message: when a
    second error is shown before the timer of the first has fired, that
    timer hides the second message, which keeps its text, while the timer
    of the second message is still pending. *)
Theorem earlier_timer_hides_later_error (w : World) (first second : string) :
  errorMessage (document (exec (showError second) (exec (showError first) w)))
  = {| textContent := second; display := "block" |}
  ∧ timers (exec (showError second) (exec (showError first) w))
    = timers w ++ [HideError; HideError]
  ∧ errorMessage
      (document (exec (timeout (length (timers w)))
                      (exec (showError second) (exec (showError first) w))))
    = {| textContent := second; display := "none" |}
  ∧ timers (exec (timeout (length (timers w)))
                 (exec (showError second) (exec (showError first) w)))
    = timers w ++ [HideError].
Proof.
  assert (Hw2 : exec (showError second) (exec (showError first) w)
                = {| appState := appState w;
                     document :=
                       set_errorMessage
                         {| textContent := second; display := "block" |}
                         (set_errorMessage
                            {| textContent := first; display := "block" |}
                            (document w));
                     inflight := inflight w;
                     timers := timers w ++ [HideError; HideError];
                     clock := clock w |}).
  { unfold exec, showError, bind, modify_dom, modify_timers. simpl.
    by rewrite <- app_assoc. }
  rewrite Hw2. split; [done |]. split; [done |].
  unfold exec, timeout, bind, get. simpl.
  rewrite lookup_app_r, Nat.sub_diag by done. simpl.
  by rewrite delete_middle.
Qed.

(** ** The page after a generation request *)

Lemma keeps_quizSection_render :
  keeps (fun w => quizSection_display (document w))
        (displayQuestion ;; updateNavigation).
Proof. keeps_handler. Qed.

Lemma generateQuiz_resume_hides_overlay r w :
  loadingOverlay_display (document (exec (generateQuiz_resume r) w)) = "none".
Proof.
  unfold exec, generateQuiz_resume, try_finally.
  by destruct (try_catch _ _ w) as [c w'].
Qed.

Lemma generateQuiz_resume_shows_quiz q w :
  quizSection_display
    (document (exec (generateQuiz_resume (Response true (BodyData q))) w))
  = "block".
Proof.
  unfold exec, generateQuiz_resume, try_finally, try_catch,
    generateQuiz_body, displayQuiz. unfold bind at 1 2 3 4 5. simpl.
  match goal with
  | |- context [(displayQuestion ;; updateNavigation) ?w1] =>
      pose proof (keeps_quizSection_render w1) as Hk;
      destruct ((displayQuestion ;; updateNavigation) w1) as [[[]|e] w']
  end; simpl in *; done.
Qed.

Lemma generateQuiz_resume_failure_document r reason w :
  failure_reason r = Some reason →
  quizSection_display (document (exec (generateQuiz_resume r) w))
  = quizSection_display (document w).
Proof.
  intros Hr. destruct r as [msg|[|] [msg| |q]]; simpl in Hr; inversion Hr; done.
Qed.

(** X16.  A call of [generateQuiz] shows the loading overlay and hides the
    quiz section.  Every delivery hides the overlay again, also when other
    requests are still in flight.  A failed delivery leaves the quiz
    section as it finds it (hidden, when it is the delivery of the only
    request since the section was hidden) although the quiz loaded before
    is still in [appState]; a delivered body shows the quiz section. *)
Theorem quiz_section_after_generation (w : World) (r : FetchResult) :
  loadingOverlay_display (document (exec generateQuiz_start w)) = "flex"
  ∧ quizSection_display (document (exec generateQuiz_start w)) = "none"
  ∧ loadingOverlay_display (document (exec (generateQuiz_resume r) w)) = "none"
  ∧ (∀ k, is_Some (inflight w !! k) →
       loadingOverlay_display (document (exec (deliver k r) w)) = "none"
       ∧ length (inflight (exec (deliver k r) w))
         = (length (inflight w) - 1)%nat)
  ∧ (∀ reason, failure_reason r = Some reason →
       quizSection_display (document (exec (generateQuiz_resume r) w))
       = quizSection_display (document w)
       ∧ quizSection_display
           (document (exec (generateQuiz_resume r) (exec generateQuiz_start w)))
         = "none"
       ∧ quiz (appState (exec (generateQuiz_resume r) (exec generateQuiz_start w)))
         = quiz (appState w))
  ∧ (∀ q, r = Response true (BodyData q) →
       quizSection_display (document (exec (generateQuiz_resume r) w)) = "block").
Proof.
  split; [done |]. split; [done |]. split; [| split; [| split]].
  - apply generateQuiz_resume_hides_overlay.
  - intros k [fd Hk]. split.
    + unfold exec, deliver. unfold bind at 1, get. cbv beta iota. rewrite Hk.
      unfold bind at 1. simpl. apply generateQuiz_resume_hides_overlay.
    + rewrite deliver_inflight, Hk. rewrite length_delete by eauto. done.
  - intros reason Hr. split; [by apply (generateQuiz_resume_failure_document r reason) |].
    rewrite (generateQuiz_resume_failure_document r reason _ Hr).
    destruct (generateQuiz_resume_failure r reason (exec generateQuiz_start w) Hr)
      as (_ & -> & _). done.
  - intros q ->. apply generateQuiz_resume_shows_quiz.
Qed.

Lemma quiz_section_after_generation_witness :
  is_Some (inflight (exec generateQuiz_start Sample.generating) !! 0%nat)
  ∧ loadingOverlay_display
      (document (exec (deliver 0 (Sample.delivered [Sample.mc]))
                      (exec generateQuiz_start Sample.generating)))
    = "none"
  ∧ length (inflight (exec (deliver 0 (Sample.delivered [Sample.mc]))
                           (exec generateQuiz_start Sample.generating)))
    = 1%nat.
Proof.
  assert (H : is_Some (inflight (exec generateQuiz_start Sample.generating) !! 0%nat))
    by (vm_compute; eexists; reflexivity).
  split; [exact H |].
  destruct (proj1 (proj2 (proj2 (proj2
    (quiz_section_after_generation (exec generateQuiz_start Sample.generating)
       (Sample.delivered [Sample.mc])))))
    0%nat H) as [Ho Hl].
  split; [exact Ho |]. rewrite Hl. vm_compute. reflexivity.
Defined.

(** X17.  A response whose quiz is the empty array is reported twice: the
    error "No questions generated" and the success "Quiz generated
    successfully!" are both displayed, and the call completes normally.  A
    response without a [quiz] key replaces the state by an absent quiz and
    displays the message of the [TypeError] raised by [updateNavigation],
    not a success. *)
Theorem notices_for_empty_and_missing_quiz (w : World) :
  (fst (generateQuiz_resume (Response true (BodyData (Some []))) w) = Normal tt
   ∧ errorMessage
       (document (exec (generateQuiz_resume (Response true (BodyData (Some [])))) w))
     = {| textContent := "No questions generated"; display := "block" |}
   ∧ successMessage
       (document (exec (generateQuiz_resume (Response true (BodyData (Some [])))) w))
     = {| textContent := "Quiz generated successfully!"; display := "block" |})
  ∧ (fst (generateQuiz_resume (Response true (BodyData None)) w) = Normal tt
     ∧ quiz (appState (exec (generateQuiz_resume (Response true (BodyData None))) w))
       = None
     ∧ answers (appState (exec (generateQuiz_resume
                                  (Response true (BodyData None))) w)) = ∅
     ∧ errorMessage
         (document (exec (generateQuiz_resume (Response true (BodyData None))) w))
       = {| textContent := message (cannot_read "length"); display := "block" |}
     ∧ successMessage
         (document (exec (generateQuiz_resume (Response true (BodyData None))) w))
       = successMessage (document w)).
Proof. done. Qed.

(** X18.  [retakeQuiz] with no quiz loaded first resets the index and
    clears the answers, then reports "No questions generated", and finally
    throws the [TypeError] of [updateNavigation], which nothing catches. *)
Theorem retakeQuiz_without_quiz (w : World) :
  quiz (appState w) = None →
  fst (retakeQuiz w) = Throw (cannot_read "length")
  ∧ answers (appState (exec retakeQuiz w)) = ∅
  ∧ currentQuestionIndex (appState (exec retakeQuiz w)) = 0
  ∧ errorMessage (document (exec retakeQuiz w))
    = {| textContent := "No questions generated"; display := "block" |}
  ∧ prevBtn_disabled (document (exec retakeQuiz w)) = true
  ∧ nextBtn_disabled (document (exec retakeQuiz w))
    = nextBtn_disabled (document w).
Proof.
  intros Hq. unfold exec, retakeQuiz, displayQuestion, updateNavigation,
    showError, bind, get, modify_app, modify_dom, modify_timers.
  simpl. rewrite Hq. cbn. rewrite Hq. done.
Qed.

Lemma retakeQuiz_without_quiz_witness :
  quiz (appState Sample.generating) = None
  ∧ fst (retakeQuiz Sample.generating) = Throw (cannot_read "length").
Proof.
  assert (H : quiz (appState Sample.generating) = None)
    by (vm_compute; reflexivity).
  split; [exact H |].
  exact (proj1 (retakeQuiz_without_quiz Sample.generating H)).
Defined.

(** ** What the inputs of the card record *)

Lemma filter_check_from (j k : nat) (rs : list Radio) :
  List.filter checked
    (imap (fun i r => {| value := value r; checked := bool_decide ((j + i)%nat = k);
                         label := label r |}) rs)
  = match (if decide (j ≤ k)%nat then rs !! (k - j)%nat else None) with
    | Some r => [ {| value := value r; checked := true; label := label r |} ]
    | None => []
    end.
Proof.
  revert j. induction rs as [|r rs IH]; intros j.
  - simpl. by case_decide.
  - rewrite imap_cons. simpl.
    rewrite (imap_ext _ (fun i r => {| value := value r;
                                       checked := bool_decide ((S j + i)%nat = k);
                                       label := label r |}))
      by (intros i x _; simpl; do 2 f_equal; apply bool_decide_ext; lia).
    rewrite IH. case_bool_decide as Hjk.
    + assert (k = j) as -> by lia. rewrite decide_False by lia.
      rewrite decide_True by lia. by rewrite Nat.sub_diag.
    + destruct (decide (j ≤ k)%nat) as [Hle|Hle].
      * rewrite decide_True by lia.
        replace (k - j)%nat with (S (k - S j)) by lia. done.
      * by rewrite decide_False by lia.
Qed.

Lemma filter_check_radio k rs r :
  rs !! k = Some r →
  List.filter checked (check_radio k rs)
  = [ {| value := value r; checked := true; label := label r |} ].
Proof.
  intros Hr. unfold check_radio.
  rewrite (imap_ext _ (fun i r => {| value := value r;
                                     checked := bool_decide ((0 + i)%nat = k);
                                     label := label r |}))
    by done.
  rewrite filter_check_from, decide_True by lia.
  by rewrite Nat.sub_0_r, Hr.
Qed.

Lemma selectRadio_records k w r :
  radios (quizContent (document w)) !! k = Some r →
  checked r = false →
  listening (quizContent (document w)) = true →
  appState (exec (selectRadio k) w)
  = set_answers (<[currentQuestionIndex (appState w) := JStr (value r)]>
                   (answers (appState w))) (appState w).
Proof.
  intros Hr Hc Hl. unfold exec, selectRadio, bind, get. cbv beta iota.
  rewrite Hr, Hc. unfold modify_dom. cbv beta iota. rewrite Hl.
  rewrite saveAnswer_app. unfold pending_answer. simpl.
  by rewrite (filter_check_radio k _ r Hr).
Qed.


Lemma js_mapi_from_lookup {A B} (f : A → Z → B) l i (k : nat) :
  js_mapi_from i f l !! k = (fun x => f x (i + Z.of_nat k)) <$> l !! k.
Proof.
  revert i k. induction l as [|x l IH]; intros i k; simpl; [done |].
  destruct k as [|k]; simpl.
  - by rewrite Z.add_0_r.
  - rewrite IH. destruct (l !! k); simpl; [| done]. do 2 f_equal. lia.
Qed.



(** X20.  Clicking the [k]-th option of a [multiple_choice] or
    [fill_in_the_blank] question records the decimal string of [k] (not
    the option text, and not a number) as the answer of the current
    question. *)
Theorem option_click_records_its_index (w : World) qs q opts (k : nat) :
  reachable w →
  quiz (appState w) = Some qs →
  js_index qs (currentQuestionIndex (appState w)) = Some q →
  Question.type q = "multiple_choice" ∨ Question.type q = "fill_in_the_blank" →
  Question.options q = Some opts →
  (k < length opts)%nat →
  answers (appState (exec (selectRadio k) (exec displayQuestion w)))
    !! currentQuestionIndex (appState w)
  = Some (JStr (pretty (Z.of_nat k))).
Proof.
  intros Hreach Hqs Hq Htype Hopts Hk.
  pose proof (answers_are_strings_reachable w Hreach) as Hstr.
  destruct (displayQuestion_options w qs q opts Hqs Hq Htype Hopts)
    as (_ & Hr & _).
  assert (Hin : question_inputs q (savedAnswer_of (appState w))
                = Normal (option_radios (savedAnswer_of (appState w)) opts, None)).
  { unfold question_inputs. rewrite Hopts. by destruct Htype as [-> | ->]. }
  pose proof (displayQuestion_listens w qs q _ _ Hqs Hq Hin) as Hl.
  assert (Happ : appState (exec displayQuestion w) = appState w)
    by apply app_stable_displayQuestion.
  destruct (lookup_lt_is_Some_2 opts k Hk) as [o Ho].
  assert (Hradio : radios (quizContent (document (exec displayQuestion w))) !! k
                   = Some {| value := pretty (Z.of_nat k);
                             checked := false; label := o |}).
  { rewrite Hr. unfold option_radios, js_mapi. rewrite js_mapi_from_lookup, Ho.
    simpl. by rewrite (savedAnswer_not_number _ _ Hstr). }
  rewrite (selectRadio_records k _ _ Hradio); [| done | done].
  simpl. rewrite Happ. apply lookup_insert_eq.
Qed.

Lemma option_click_records_its_index_witness :
  reachable Sample.reviewing
  ∧ answers (appState (exec (selectRadio 2) (exec displayQuestion Sample.reviewing)))
      !! currentQuestionIndex (appState Sample.reviewing)
    = Some (JStr (pretty (Z.of_nat 2))).
Proof.
  split; [exact reachable_reviewing |].
  refine (option_click_records_its_index Sample.reviewing
    [Sample.mc; Sample.tf; Sample.sa] Sample.mc ["Rome"; "Paris"; "Oslo"] 2
    reachable_reviewing _ _ _ _ _).
  - vm_compute; reflexivity.
  - vm_compute; reflexivity.
  - left. reflexivity.
  - reflexivity.
  - simpl. lia.
Defined.

(** ** Exports *)

Lemma string_length_app (a b : string) :
  String.length (a +:+ b) = (String.length a + String.length b)%nat.
Proof. induction a as [|c a IH]; simpl; [done | by rewrite IH]. Qed.

Lemma string_app_inj_r (a b s : string) : a +:+ s = b +:+ s → a = b.
Proof.
  revert b. induction a as [|c a IH]; intros [|c' b] H; simpl in H.
  - done.
  - apply (f_equal String.length) in H. simpl in H.
    rewrite !string_length_app in H. simpl in H. lia.
  - apply (f_equal String.length) in H. simpl in H.
    rewrite !string_length_app in H. simpl in H. lia.
  - injection H as -> H. by rewrite (IH b H).
Qed.

Lemma string_app_inj_l (s a b : string) : s +:+ a = s +:+ b → a = b.
Proof. induction s as [|c s IH]; simpl; [done |]. intros [= H]. by apply IH. Qed.

Lemma downloadQuiz_result dt w :
  downloadQuiz dt w
  = (Normal {| download := "quiz-" +:+ pretty (clock w + Z.max dt 0) +:+ ".json";
               content := {| qd_questions := quiz (appState w);
                             qd_answers := answers (appState w);
                             qd_timestamp := toISOString (clock w) |} |},
     {| appState := appState w;
        document := set_successMessage
                      {| textContent := "Quiz downloaded successfully!";
                         display := "block" |} (document w);
        inflight := inflight w;
        timers := timers w ++ [HideSuccess];
        clock := clock w + Z.max dt 0 |}).
Proof. done. Qed.

(** X21.  [downloadQuiz] has no guard: with no quiz loaded it still
    completes normally, exports a record whose [questions] are absent and
    whose [answers] are the current ones, and displays "Quiz downloaded
    successfully!".  It never changes [appState]. *)
Theorem downloadQuiz_without_quiz (w : World) (dt : Z) :
  quiz (appState w) = None →
  (∃ d, fst (downloadQuiz dt w) = Normal d
        ∧ qd_questions (content d) = None
        ∧ qd_answers (content d) = answers (appState w))
  ∧ successMessage (document (exec (downloadQuiz dt) w))
    = {| textContent := "Quiz downloaded successfully!"; display := "block" |}
  ∧ errorMessage (document (exec (downloadQuiz dt) w))
    = errorMessage (document w)
  ∧ appState (exec (downloadQuiz dt) w) = appState w.
Proof.
  intros Hq. unfold exec. rewrite downloadQuiz_result. simpl.
  split; [| done]. eexists. split; [reflexivity |]. simpl. by rewrite Hq.
Qed.

Lemma downloadQuiz_without_quiz_witness :
  quiz (appState Sample.generating) = None
  ∧ appState (exec (downloadQuiz 0) Sample.generating)
    = appState Sample.generating.
Proof.
  assert (H : quiz (appState Sample.generating) = None)
    by (vm_compute; reflexivity).
  split; [exact H |].
  exact (proj2 (proj2 (proj2 (downloadQuiz_without_quiz Sample.generating 0 H)))).
Defined.

(** X22.  The name of the exported file is [quiz-<time>.json], where
    [<time>] is the clock in milliseconds when the name is made; two
    exports get the same file name only if their names were made at the
    same millisecond. *)
Theorem export_names_differ_with_time (w1 w2 : World) (dt1 dt2 : Z) d1 d2 :
  fst (downloadQuiz dt1 w1) = Normal d1 →
  fst (downloadQuiz dt2 w2) = Normal d2 →
  download d1 = download d2 →
  clock (exec (downloadQuiz dt1) w1) = clock (exec (downloadQuiz dt2) w2)
  ∧ download d1 = "quiz-" +:+ pretty (clock (exec (downloadQuiz dt1) w1)) +:+ ".json".
Proof.
  unfold exec. rewrite !downloadQuiz_result. simpl.
  intros [= <-] [= <-]. simpl. intros H. split; [| done].
  apply (string_app_inj_l "quiz-") in H.
  apply string_app_inj_r in H. by apply (inj pretty) in H.
Qed.

Lemma export_names_differ_with_time_witness :
  fst (downloadQuiz 5 Sample.reviewing)
  = Normal {| download := "quiz-5.json";
              content := {| qd_questions := quiz (appState Sample.reviewing);
                            qd_answers := answers (appState Sample.reviewing);
                            qd_timestamp := "1970-01-01T00:00:00.000Z" |} |}
  ∧ clock (exec (downloadQuiz 5) Sample.reviewing)
    = clock (exec (downloadQuiz 5) Sample.reviewing).
Proof.
  assert (H : fst (downloadQuiz 5 Sample.reviewing)
              = Normal {| download := "quiz-5.json";
                          content := {| qd_questions := quiz (appState Sample.reviewing);
                                        qd_answers := answers (appState Sample.reviewing);
                                        qd_timestamp := "1970-01-01T00:00:00.000Z" |} |})
    by (vm_compute; reflexivity).
  split; [exact H |].
  exact (proj1 (export_names_differ_with_time Sample.reviewing Sample.reviewing
                  5 5 _ _ H H eq_refl)).
Defined.
